(** * Egress-IP watcher and master node watcher of the SDN control plane

    Shallow embedding of [pkg/network/node/egressip.go] (the revision with
    [getMarkForVNID] and masquerade bit), and of the [ovssubnet]
    controller: the master's node operations ([watchNodes], [AddNode],
    [DeleteNode], [ServeExistingNodes]), its VNID handling ([assignVNID],
    [revokeVNID], the namespace pass of [StartMaster], [watchNetworks]) and
    the node's [watchVnids] and [watchServices] loops.

    Go pointers shared between two maps ([nodesByNodeIP] / [nodesByEgressIP],
    [namespacesByVNID] / [namespacesByEgressIP]) are modelled by a heap of
    objects indexed by [nat], so that aliasing is kept: the maps store heap
    addresses.  A [sets.String] is a [gset string]; the unspecified iteration
    order of [UnsortedList] is fixed to the order of [elements].

    Calls to the kernel (netlink), the NAT backend (iptables) and the flow
    backend (OVS) are emitted as events; kernel and NAT outcomes come from an
    oracle record [kernel].  Messages written with [glog] are emitted as log
    events. *)

From Stdlib Require Import ZArith String Ascii.
From stdpp Require Import base gmap sets list strings.

(* ------------------------------------------------------------------ *)
(** ** Marks *)

(** [getMarkForVNID], numeric part (all values are [uint32]; the results
    stay below [2^32] for [uint32] inputs). *)
Definition getMarkValue (vnid masqueradeBit : Z) : Z :=
  let vnid := if Z.eqb vnid 0 then 0xff000000%Z else vnid in
  if negb (Z.eqb (Z.land vnid masqueradeBit) 0)
  then Z.lxor (Z.lor vnid 0x01000000%Z) masqueradeBit
  else vnid.

Definition hex_digit (d : Z) : ascii :=
  match d with
  | 0%Z => "0" | 1%Z => "1" | 2%Z => "2" | 3%Z => "3"
  | 4%Z => "4" | 5%Z => "5" | 6%Z => "6" | 7%Z => "7"
  | 8%Z => "8" | 9%Z => "9" | 10%Z => "a" | 11%Z => "b"
  | 12%Z => "c" | 13%Z => "d" | 14%Z => "e" | _ => "f"
  end%char.

(** The [n] lowest hexadecimal digits of [v], most significant first. *)
Fixpoint hex_digits (n : nat) (v : Z) : string :=
  match n with
  | O => EmptyString
  | S k => String (hex_digit (Z.land (Z.shiftr v (4 * Z.of_nat k)) 15))
                  (hex_digits k v)
  end.

(** [fmt.Sprintf("0x%08x", vnid)] on a [uint32]. *)
Definition getMarkForVNID (vnid masqueradeBit : Z) : string :=
  ("0x" ++ hex_digits 8 (getMarkValue vnid masqueradeBit))%string.

(** [newEgressIPWatcher]: [1 << uint32( *masqueradeBit)] stored in a
    [uint32] field (a shift of 32 or more gives 0), or 0 when absent. *)
Definition masqueradeBitOf (mb : option Z) : Z :=
  match mb with
  | None => 0%Z
  | Some b => let sh := (b mod 2 ^ 32)%Z in
              if Z.ltb sh 32 then Z.shiftl 1 sh else 0%Z
  end.

(* ------------------------------------------------------------------ *)
(** ** Data model *)

Module NodeEgress.
Record t := mk {
  nodeIP : string;
  (** the EgressIPs listed on the node's HostSubnet *)
  requestedIPs : gset string;
  (** the IPs actually in use on the node *)
  assignedIPs : gset string
}.
Definition nil_node : t := mk "" ∅ ∅.
End NodeEgress.

Module NamespaceEgress.
Record t := mk {
  vnid : Z;
  (** the egress IP it wants (NetNamespace.EgressIPs[0]) *)
  requestedIP : string;
  (** an egress IP actually in use on nodeIP *)
  assignedIP : string;
  nodeIP : string
}.
Definition nil_ns : t := mk 0 "" "" "".
End NamespaceEgress.

(** Outcomes of netlink address changes. *)
Inductive addrResult :=
| AddrOK
| AddrSoft   (* EEXIST on add, EADDRNOTAVAIL on delete: logged, success *)
| AddrErr.

(** Oracle for the kernel and NAT layer, as seen by [assignEgressIP] and
    [releaseEgressIP]. *)
Record kernel := {
  k_parse : string -> bool;        (* netlink.ParseAddr(ip/len) succeeds *)
  k_contains : string -> bool;     (* localEgressNet.Contains(ip) *)
  k_addrAdd : string -> addrResult;
  k_addrDel : string -> addrResult;
  k_iptAdd : string -> string -> bool;  (* AddEgressIPRules succeeds *)
  k_iptDel : string -> string -> bool   (* DeleteEgressIPRules succeeds *)
}.

(** Immutable fields of [egressIPWatcher]. *)
Record watcherCfg := {
  localIP : string;
  masqueradeBit : Z;
  testMode : bool;        (* testModeChan != nil *)
  kern : kernel
}.

Inductive egressErr :=
| ESelfIP | EParse | EOutOfRange | EAddrAdd | EAddrDel | EIptables.

(** Calls to the outside world. *)
Inductive call :=
| CTestChan (verb ip : string)   (* testModeChan <- "<verb> <ip>" *)
| CAddrAdd (ip : string)
| CAddrDel (ip : string)
| CAddEgressIPRules (ip mark : string)
| CDeleteEgressIPRules (ip mark : string)
| CSetNamespaceEgressViaEgressIP (vnid : Z) (nodeIP mark : string)
| CSetNamespaceEgressNormal (vnid : Z)
| CSetNamespaceEgressDropped (vnid : Z).

Inductive logMsg :=
| LMultipleNodes (ip n1 n2 : string)
| LMultipleNetNamespaces (ip : string) (v1 v2 : Z)
| LAssignError (ip : string) (e : egressErr)
| LReleaseError (ip : string) (e : egressErr)
| LAddrAlreadyExists (ip : string)
| LAddrNotPresent (ip : string)
| LIgnoringExtra (vnid : Z).

Inductive ev :=
| EvCall (c : call)
| EvLog (l : logMsg).

Definition is_call (e : ev) : bool :=
  match e with EvCall _ => true | EvLog _ => false end.

(** The mutable part of [egressIPWatcher], with its object heaps. *)
Record St := mkSt {
  nodes : gmap nat NodeEgress.t;
  nextNode : nat;
  nodesByNodeIP : gmap string nat;
  nodesByEgressIP : gmap string nat;
  nss : gmap nat NamespaceEgress.t;
  nextNs : nat;
  namespacesByVNID : gmap Z nat;
  namespacesByEgressIP : gmap string nat
}.

(** [newEgressIPWatcher]: all maps empty. *)
Definition initSt : St := mkSt ∅ 0 ∅ ∅ ∅ 0 ∅ ∅.

Definition nodeAt (s : St) (id : nat) : NodeEgress.t :=
  default NodeEgress.nil_node (nodes s !! id).
Definition nsAt (s : St) (id : nat) : NamespaceEgress.t :=
  default NamespaceEgress.nil_ns (nss s !! id).
Arguments nodeAt : simpl never.
Arguments nsAt : simpl never.

Definition upd_nodes (f : gmap nat NodeEgress.t -> gmap nat NodeEgress.t) (s : St) : St :=
  mkSt (f (nodes s)) (nextNode s) (nodesByNodeIP s) (nodesByEgressIP s)
       (nss s) (nextNs s) (namespacesByVNID s) (namespacesByEgressIP s).
Definition upd_nextNode (f : nat -> nat) (s : St) : St :=
  mkSt (nodes s) (f (nextNode s)) (nodesByNodeIP s) (nodesByEgressIP s)
       (nss s) (nextNs s) (namespacesByVNID s) (namespacesByEgressIP s).
Definition upd_nextNs (f : nat -> nat) (s : St) : St :=
  mkSt (nodes s) (nextNode s) (nodesByNodeIP s) (nodesByEgressIP s)
       (nss s) (f (nextNs s)) (namespacesByVNID s) (namespacesByEgressIP s).
Definition upd_nodesByNodeIP (f : gmap string nat -> gmap string nat) (s : St) : St :=
  mkSt (nodes s) (nextNode s) (f (nodesByNodeIP s)) (nodesByEgressIP s)
       (nss s) (nextNs s) (namespacesByVNID s) (namespacesByEgressIP s).
Definition upd_nodesByEgressIP (f : gmap string nat -> gmap string nat) (s : St) : St :=
  mkSt (nodes s) (nextNode s) (nodesByNodeIP s) (f (nodesByEgressIP s))
       (nss s) (nextNs s) (namespacesByVNID s) (namespacesByEgressIP s).
Definition upd_nss (f : gmap nat NamespaceEgress.t -> gmap nat NamespaceEgress.t) (s : St) : St :=
  mkSt (nodes s) (nextNode s) (nodesByNodeIP s) (nodesByEgressIP s)
       (f (nss s)) (nextNs s) (namespacesByVNID s) (namespacesByEgressIP s).
Definition upd_namespacesByVNID (f : gmap Z nat -> gmap Z nat) (s : St) : St :=
  mkSt (nodes s) (nextNode s) (nodesByNodeIP s) (nodesByEgressIP s)
       (nss s) (nextNs s) (f (namespacesByVNID s)) (namespacesByEgressIP s).
Definition upd_namespacesByEgressIP (f : gmap string nat -> gmap string nat) (s : St) : St :=
  mkSt (nodes s) (nextNode s) (nodesByNodeIP s) (nodesByEgressIP s)
       (nss s) (nextNs s) (namespacesByVNID s) (f (namespacesByEgressIP s)).

(* ------------------------------------------------------------------ *)
(** ** The watcher monad: state, plus the events emitted so far *)

Definition M (A : Type) : Type := St -> A * St * list ev.

Global Instance M_ret : MRet M := fun A (x : A) s => (x, s, []).
Global Instance M_bind : MBind M := fun A B (k : A -> M B) (m : M A) s =>
  match m s with
  | (a, s1, e1) => match k a s1 with (b, s2, e2) => (b, s2, e1 ++ e2) end
  end.

Definition getS : M St := fun s => (s, s, []).
Definition modifyS (f : St -> St) : M unit := fun s => (tt, f s, []).
Definition emit (e : ev) : M unit := fun s => (tt, s, [e]).

Fixpoint forM_ (l : list string) (body : string -> M unit) : M unit :=
  match l with
  | [] => mret tt
  | x :: l' => body x ;; forM_ l' body
  end.

(** [*node = v], [*ns = v] through a pointer. *)
Definition storeNode (id : nat) (nd : NodeEgress.t) : M unit :=
  modifyS (upd_nodes (<[id := nd]>)).
Definition storeNs (id : nat) (ns : NamespaceEgress.t) : M unit :=
  modifyS (upd_nss (<[id := ns]>)).

(** [&nodeEgress{...}] / [&namespaceEgress{...}]: a fresh heap object. *)
Definition newNode (nd : NodeEgress.t) : M nat := fun s =>
  (nextNode s, upd_nextNode S (upd_nodes (<[nextNode s := nd]>) s), []).
Definition newNs (ns : NamespaceEgress.t) : M nat := fun s =>
  (nextNs s, upd_nextNs S (upd_nss (<[nextNs s := ns]>) s), []).

Definition with_requestedIPs (nd : NodeEgress.t) (r : gset string) : NodeEgress.t :=
  NodeEgress.mk (NodeEgress.nodeIP nd) r (NodeEgress.assignedIPs nd).
Definition with_assignedIPs (nd : NodeEgress.t) (a : gset string) : NodeEgress.t :=
  NodeEgress.mk (NodeEgress.nodeIP nd) (NodeEgress.requestedIPs nd) a.
Definition with_requestedIP (ns : NamespaceEgress.t) (ip : string) : NamespaceEgress.t :=
  NamespaceEgress.mk (NamespaceEgress.vnid ns) ip (NamespaceEgress.assignedIP ns)
                     (NamespaceEgress.nodeIP ns).
Definition with_assignment (ns : NamespaceEgress.t) (ip nodeIP : string) : NamespaceEgress.t :=
  NamespaceEgress.mk (NamespaceEgress.vnid ns) (NamespaceEgress.requestedIP ns) ip nodeIP.

(* ------------------------------------------------------------------ *)
(** ** Local IP assignment *)

Section Watcher.
Variable c : watcherCfg.

Definition assignEgressIP (egressIP mark : string) : M (option egressErr) :=
  if String.eqb egressIP (localIP c) then mret (Some ESelfIP) else
  if testMode c then emit (EvCall (CTestChan "claim" egressIP)) ;; mret None else
  if negb (k_parse (kern c) egressIP) then mret (Some EParse) else
  if negb (k_contains (kern c) egressIP) then mret (Some EOutOfRange) else
  emit (EvCall (CAddrAdd egressIP)) ;;
  match k_addrAdd (kern c) egressIP with
  | AddrErr => mret (Some EAddrAdd)
  | r =>
      (match r with AddrSoft => emit (EvLog (LAddrAlreadyExists egressIP)) | _ => mret tt end) ;;
      emit (EvCall (CAddEgressIPRules egressIP mark)) ;;
      if k_iptAdd (kern c) egressIP mark then mret None else mret (Some EIptables)
  end.

Definition releaseEgressIP (egressIP mark : string) : M (option egressErr) :=
  if String.eqb egressIP (localIP c) then mret None else
  if testMode c then emit (EvCall (CTestChan "release" egressIP)) ;; mret None else
  if negb (k_parse (kern c) egressIP) then mret (Some EParse) else
  emit (EvCall (CAddrDel egressIP)) ;;
  match k_addrDel (kern c) egressIP with
  | AddrErr => mret (Some EAddrDel)
  | r =>
      (match r with AddrSoft => emit (EvLog (LAddrNotPresent egressIP)) | _ => mret tt end) ;;
      emit (EvCall (CDeleteEgressIPRules egressIP mark)) ;;
      if k_iptDel (kern c) egressIP mark then mret None else mret (Some EIptables)
  end.

(* ------------------------------------------------------------------ *)
(** ** Reconciliation *)

Definition maybeAddEgressIP (egressIP : string) : M unit :=
  s ← getS;
  match namespacesByEgressIP s !! egressIP with
  | None => mret tt
  | Some nsid =>
      let mark := getMarkForVNID (NamespaceEgress.vnid (nsAt s nsid)) (masqueradeBit c) in
      nodeIP ← (match nodesByEgressIP s !! egressIP with
                | Some nid =>
                    let node := nodeAt s nid in
                    if bool_decide (egressIP ∈ NodeEgress.assignedIPs node) then mret ""%string
                    else
                      storeNode nid (with_assignedIPs node
                                       (NodeEgress.assignedIPs node ∪ {[egressIP]})) ;;
                      if String.eqb (NodeEgress.nodeIP node) (localIP c) then
                        r ← assignEgressIP egressIP mark;
                        match r with
                        | None => mret (NodeEgress.nodeIP node)
                        | Some e => emit (EvLog (LAssignError egressIP e)) ;; mret ""%string
                        end
                      else mret (NodeEgress.nodeIP node)
                | None => mret ""%string
                end);
      s ← getS;
      let ns := nsAt s nsid in
      if negb (String.eqb (NamespaceEgress.assignedIP ns) egressIP)
         || negb (String.eqb (NamespaceEgress.nodeIP ns) nodeIP)
      then storeNs nsid (with_assignment ns egressIP nodeIP) ;;
           emit (EvCall (CSetNamespaceEgressViaEgressIP (NamespaceEgress.vnid ns) nodeIP mark))
      else mret tt
  end.

Definition deleteEgressIP (egressIP : string) : M unit :=
  s ← getS;
  match nodesByEgressIP s !! egressIP, namespacesByEgressIP s !! egressIP with
  | Some nid, Some nsid =>
      let mark := getMarkForVNID (NamespaceEgress.vnid (nsAt s nsid)) (masqueradeBit c) in
      (if String.eqb (NodeEgress.nodeIP (nodeAt s nid)) (localIP c) then
         r ← releaseEgressIP egressIP mark;
         (match r with Some e => emit (EvLog (LReleaseError egressIP e)) | None => mret tt end) ;;
         s ← getS;
         let node := nodeAt s nid in
         storeNode nid (with_assignedIPs node (NodeEgress.assignedIPs node ∖ {[egressIP]}))
       else mret tt) ;;
      s ← getS;
      let ns := nsAt s nsid in
      (if String.eqb (NamespaceEgress.assignedIP ns) egressIP
       then storeNs nsid (with_assignment ns "" "") else mret tt) ;;
      s ← getS;
      let ns := nsAt s nsid in
      if String.eqb (NamespaceEgress.requestedIP ns) ""
      then emit (EvCall (CSetNamespaceEgressNormal (NamespaceEgress.vnid ns)))
      else emit (EvCall (CSetNamespaceEgressDropped (NamespaceEgress.vnid ns)))
  | _, _ => mret tt
  end.

Definition updateNodeEgress (nodeIP : string) (nodeEgressIPs : list string) : M unit :=
  s ← getS;
  onode ← (match nodesByNodeIP s !! nodeIP with
           | None =>
               match nodeEgressIPs with
               | [] => mret None
               | _ => id ← newNode (NodeEgress.mk nodeIP ∅ ∅);
                      modifyS (upd_nodesByNodeIP (<[nodeIP := id]>)) ;;
                      mret (Some id)
               end
           | Some id =>
               (match nodeEgressIPs with
                | [] => modifyS (upd_nodesByNodeIP (delete nodeIP))
                | _ => mret tt
                end) ;; mret (Some id)
           end);
  match onode with
  | None => mret tt
  | Some id =>
      s ← getS;
      let node := nodeAt s id in
      let oldRequestedIPs := NodeEgress.requestedIPs node in
      let requestedIPs : gset string := list_to_set nodeEgressIPs in
      storeNode id (with_requestedIPs node requestedIPs) ;;
      (* Process new EgressIPs *)
      forM_ (elements (requestedIPs ∖ oldRequestedIPs)) (fun ip =>
        s ← getS;
        match nodesByEgressIP s !! ip with
        | Some oldId =>
            emit (EvLog (LMultipleNodes ip (NodeEgress.nodeIP (nodeAt s id))
                                           (NodeEgress.nodeIP (nodeAt s oldId))))
        | None =>
            modifyS (upd_nodesByEgressIP (<[ip := id]>)) ;;
            maybeAddEgressIP ip
        end) ;;
      (* Process removed EgressIPs *)
      forM_ (elements (oldRequestedIPs ∖ requestedIPs)) (fun ip =>
        s ← getS;
        if bool_decide (nodesByEgressIP s !! ip = Some id) then
          deleteEgressIP ip ;;
          modifyS (upd_nodesByEgressIP (delete ip))
        else (* User removed a duplicate EgressIP *) mret tt)
  end.

Definition updateNamespaceEgress (vnid : Z) (egressIP : string) : M unit :=
  s ← getS;
  nsid ← (match namespacesByVNID s !! vnid with
          | Some id => mret id
          | None => id ← newNs (NamespaceEgress.mk vnid "" "" "");
                    modifyS (upd_namespacesByVNID (<[vnid := id]>)) ;;
                    mret id
          end);
  s ← getS;
  let ns := nsAt s nsid in
  if String.eqb (NamespaceEgress.requestedIP ns) egressIP then mret tt else
  match namespacesByEgressIP s !! egressIP with
  | Some oldId =>
      emit (EvLog (LMultipleNetNamespaces egressIP (NamespaceEgress.vnid ns)
                                          (NamespaceEgress.vnid (nsAt s oldId))))
  | None =>
      (if negb (String.eqb (NamespaceEgress.assignedIP ns) "") then
         deleteEgressIP egressIP ;;
         modifyS (upd_namespacesByEgressIP (delete egressIP)) ;;
         s ← getS;
         storeNs nsid (with_assignment (nsAt s nsid) "" "")
       else mret tt) ;;
      s ← getS;
      storeNs nsid (with_requestedIP (nsAt s nsid) egressIP) ;;
      modifyS (upd_namespacesByEgressIP (<[egressIP := nsid]>)) ;;
      maybeAddEgressIP egressIP
  end.

Definition deleteNamespaceEgress (vnid : Z) : M unit :=
  s ← getS;
  match namespacesByVNID s !! vnid with
  | None => mret tt
  | Some nsid =>
      let ns := nsAt s nsid in
      (if negb (String.eqb (NamespaceEgress.assignedIP ns) "") then
         storeNs nsid (with_requestedIP ns "") ;;
         let egressIP := NamespaceEgress.assignedIP ns in
         deleteEgressIP egressIP ;;
         modifyS (upd_namespacesByEgressIP (delete egressIP))
       else mret tt) ;;
      modifyS (upd_namespacesByVNID (delete vnid))
  end.

(** The event handlers of [watchHostSubnets] and [watchNetNamespaces]. *)
Definition handleHostSubnet (deleted : bool) (hostIP : string) (egressIPs : list string) : M unit :=
  updateNodeEgress hostIP (if deleted then [] else egressIPs).

Definition handleNetNamespace (deleted : bool) (netID : Z) (egressIPs : list string) : M unit :=
  match deleted, egressIPs with
  | false, ip :: rest =>
      (match rest with [] => mret tt | _ => emit (EvLog (LIgnoringExtra netID)) end) ;;
      updateNamespaceEgress netID ip
  | _, _ => deleteNamespaceEgress netID
  end.

End Watcher.

(* ------------------------------------------------------------------ *)
(** ** Master: the [Added] branch of [watchNodes] *)

Module Master.

Record subnet := mkSubnet { NodeIP : string; SubnetIP : string }.

(** Outcomes of the subnet-registry calls (the shared store may fail). *)
Record registryEnv := {
  getOK : string -> bool;
  deleteOK : string -> bool;
  createOK : string -> subnet -> bool
}.

(** Persisted subnets by node name, and the free pool of the
    [SubnetAllocator]. *)
Record mstate := mkM { subnets : gmap string subnet; freeNets : list string }.

Inductive mcall :=
| MGetNetwork
| MDeleteSubnet (name : string)
| MCreateSubnet (name : string) (sub : subnet)
| MLog (msg : string).

Section Registry.
Variable env : registryEnv.

Definition GetSubnet (st : mstate) (name : string) : option subnet :=
  if getOK env name then subnets st !! name else None.

Definition DeleteSubnet (name : string) (st : mstate) : bool * mstate :=
  if deleteOK env name
  then (true, mkM (delete name (subnets st)) (freeNets st))
  else (false, st).

Definition CreateSubnet (name : string) (sub : subnet) (st : mstate) : bool * mstate :=
  if createOK env name sub
  then (true, mkM (<[name := sub]> (subnets st)) (freeNets st))
  else (false, st).

(** [SubnetAllocator.GetNetwork]: the next free network, or an error. *)
Definition GetNetwork (st : mstate) : option string * mstate :=
  match freeNets st with
  | [] => (None, st)
  | n :: rest => (Some n, mkM (subnets st) rest)
  end.

Definition AddNode (nodeName nodeIP : string) (st : mstate) : mstate * list mcall :=
  match GetNetwork st with
  | (None, st1) => (st1, [MGetNetwork; MLog "Error creating network for node"])
  | (Some sn, st1) =>
      if String.eqb nodeIP "" || String.eqb nodeIP "127.0.0.1"
      then (st1, [MGetNetwork])   (* returns "Invalid node IP" *)
      else
        let sub := mkSubnet nodeIP sn in
        match CreateSubnet nodeName sub st1 with
        | (true, st2) => (st2, [MGetNetwork; MCreateSubnet nodeName sub])
        | (false, st2) => (st2, [MGetNetwork; MCreateSubnet nodeName sub;
                                 MLog "Error writing subnet to etcd"])
        end
  end.

(** One [api.Added] node event of [watchNodes]. *)
Definition watchNodesAdded (name ip : string) (st : mstate) : mstate * list mcall :=
  match GetSubnet st name with
  | None => AddNode name ip st
  | Some sub =>
      if String.eqb (NodeIP sub) ip then (st, []) else
      match DeleteSubnet name st with
      | (false, st1) => (st1, [MDeleteSubnet name; MLog "Error deleting subnet"])
      | (true, st1) =>
          let sub' := mkSubnet ip (SubnetIP sub) in
          match CreateSubnet name sub' st1 with
          | (true, st2) => (st2, [MDeleteSubnet name; MCreateSubnet name sub'])
          | (false, st2) => (st2, [MDeleteSubnet name; MCreateSubnet name sub';
                                   MLog "Error creating subnet"])
          end
      end
  end.

End Registry.

(** A registry whose calls all succeed, and one where [CreateSubnet]
    fails. *)
Definition envOK : registryEnv :=
  {| getOK := fun _ => true; deleteOK := fun _ => true; createOK := fun _ _ => true |}.
Definition envCreateFails : registryEnv :=
  {| getOK := fun _ => true; deleteOK := fun _ => true; createOK := fun _ _ => false |}.

(** Node [n1] has subnet [10.128.0.0/23] recorded at [10.1.0.1]. *)
Definition mst1 : mstate :=
  mkM {[ "n1"%string := mkSubnet "10.1.0.1" "10.128.0.0/23" ]} ["10.128.2.0/23"%string].
(* ------------------------------------------------------------------ *)
(** ** Master: the other node operations of the controller *)

(** [api.Node] as listed by [GetNodes]. *)
Record node := mkNode { Name : string; IP : string }.

(** [SubnetAllocator.ReleaseNetwork] (the allocator is outside these
    sources; its pool is the free list [GetNetwork] takes from): the
    network goes back to the free pool.  Its error cases (a network not
    currently allocated, or of the wrong size) are not modelled: the only
    caller, [DeleteNode], ignores the result. *)
Definition ReleaseNetwork (sn : string) (st : mstate) : mstate :=
  mkM (subnets st) (sn :: freeNets st).

Section Nodes.
Variable env : registryEnv.
(** [net.ParseCIDR] succeeds on a stored [SubnetIP]. *)
Variable parseCIDR : string -> bool.

(** The error [AddNode] returns, from the same branches as [AddNode]. *)
Definition AddNodeError (nodeName nodeIP : string) (st : mstate) : option string :=
  match GetNetwork st with
  | (None, _) => Some "Error creating network for node"%string
  | (Some sn, st1) =>
      if String.eqb nodeIP "" || String.eqb nodeIP "127.0.0.1"
      then Some "Invalid node IP"%string
      else if (CreateSubnet env nodeName (mkSubnet nodeIP sn) st1).1 then None
      else Some "Error writing subnet to etcd"%string
  end.

(** The loop of [ServeExistingNodes]: nodes whose subnet can be read are
    skipped; the first [AddNode] error is returned. *)
Fixpoint serveNodes (nodes : list node) (st : mstate) : option string * mstate :=
  match nodes with
  | [] => (None, st)
  | nd :: rest =>
      match GetSubnet env st (Name nd) with
      | Some _ => serveNodes rest st
      | None =>
          let st' := (AddNode env (Name nd) (IP nd) st).1 in
          match AddNodeError (Name nd) (IP nd) st with
          | Some e => (Some e, st')
          | None => serveNodes rest st'
          end
      end
  end.

(** [ServeExistingNodes]; [getNodes] is the result of [GetNodes]. *)
Definition ServeExistingNodes (getNodes : option (list node)) (st : mstate) : option string * mstate :=
  match getNodes with
  | None => (Some "Error fetching nodes"%string, st)
  | Some nodes => serveNodes nodes st
  end.

(** [DeleteNode], also the [api.Deleted] branch of [watchNodes] (which
    drops the error). *)
Definition DeleteNode (nodeName : string) (st : mstate) : option string * mstate :=
  match GetSubnet env st nodeName with
  | None => (Some "Error fetching subnet"%string, st)
  | Some sub =>
      if negb (parseCIDR (SubnetIP sub)) then (Some "Error parsing subnet"%string, st) else
      let st1 := ReleaseNetwork (SubnetIP sub) st in
      match DeleteSubnet env nodeName st1 with
      | (true, st2) => (None, st2)
      | (false, st2) => (Some "Error deleting subnet"%string, st2)
      end
  end.

End Nodes.

(** The node IPs [AddNode] accepts. *)
Definition validIP (ip : string) : bool :=
  negb (String.eqb ip "" || String.eqb ip "127.0.0.1").



Definition nodesList : list node := [mkNode "n1" "10.1.0.1"; mkNode "n2" "10.1.0.2"].
End Master.

(* ------------------------------------------------------------------ *)
(** ** Master: VNIDs of namespaces, and the node's service rules *)

Module VNID.

(** The master's [NetNamespace] records in the registry, its [VNIDMap],
    and the free pool of the [NetIDAllocator]. *)
Record vstate := mkV {
  netNamespaces : gmap string Z;
  VNIDMap : gmap string Z;
  freeIDs : list Z
}.

(** Outcomes of the registry calls (the shared store may fail). *)
Record vnidEnv := {
  nsGetOK : string -> bool;
  nsWriteOK : string -> Z -> bool;
  nsDeleteOK : string -> bool
}.

Definition with_netNamespaces (f : gmap string Z -> gmap string Z) (st : vstate) : vstate :=
  mkV (f (netNamespaces st)) (VNIDMap st) (freeIDs st).
Definition with_VNIDMap (f : gmap string Z -> gmap string Z) (st : vstate) : vstate :=
  mkV (netNamespaces st) (f (VNIDMap st)) (freeIDs st).

(** [NetIDAllocator.GetNetID] (the allocator is outside these sources; its
    pool is a free list, as for the [SubnetAllocator]): the next free id,
    or an error. *)
Definition GetNetID (st : vstate) : option Z * vstate :=
  match freeIDs st with
  | [] => (None, st)
  | id :: rest => (Some id, mkV (netNamespaces st) (VNIDMap st) rest)
  end.

(** [NetIDAllocator.ReleaseNetID]: the id goes back to the pool; releasing
    a free id is an error.  Ids outside the allocator's range are not
    checked. *)
Definition ReleaseNetID (id : Z) (st : vstate) : bool * vstate :=
  if bool_decide (id ∈ freeIDs st) then (false, st)
  else (true, mkV (netNamespaces st) (VNIDMap st) (id :: freeIDs st)).

Section Registry.
Variable env : vnidEnv.

Definition GetNetNamespace (st : vstate) (name : string) : option Z :=
  if nsGetOK env name then netNamespaces st !! name else None.

Definition WriteNetNamespace (name : string) (id : Z) (st : vstate) : bool * vstate :=
  if nsWriteOK env name id then (true, with_netNamespaces (<[name := id]>) st) else (false, st).

Definition DeleteNetNamespace (name : string) (st : vstate) : bool * vstate :=
  if nsDeleteOK env name then (true, with_netNamespaces (delete name) st) else (false, st).

Definition assignVNID (namespaceName : string) (st : vstate) : option string * vstate :=
  match GetNetNamespace st namespaceName with
  | Some _ => (None, st)
  | None =>
      match GetNetID st with
      | (None, st1) => (Some "Error allocating Net ID"%string, st1)
      | (Some netid, st1) =>
          match WriteNetNamespace namespaceName netid st1 with
          | (false, st2) =>
              (* a failed release is only logged *)
              (Some "Error writing NetNamespace"%string, (ReleaseNetID netid st2).2)
          | (true, st2) => (None, with_VNIDMap (<[namespaceName := netid]>) st2)
          end
      end
  end.

Definition revokeVNID (namespaceName : string) (st : vstate) : option string * vstate :=
  match DeleteNetNamespace namespaceName st with
  | (false, st1) => (Some "Error deleting NetNamespace"%string, st1)
  | (true, st1) =>
      match VNIDMap st1 !! namespaceName with
      | None => (Some "Error while fetching Net ID for namespace"%string, st1)
      | Some netid =>
          match ReleaseNetID netid st1 with
          | (false, st2) => (Some "Error while releasing Net ID"%string, st2)
          | (true, st2) => (None, with_VNIDMap (delete namespaceName) st2)
          end
      end
  end.

Definition isAdminNamespace (adminNamespaces : list string) (nsName : string) : bool :=
  existsb (String.eqb nsName) adminNamespaces.

(** The loop of [StartMaster] over the existing namespaces. *)
Fixpoint StartMasterNamespaces (admins : list string) (existingNamespaces : list string)
    (st : vstate) : option string * vstate :=
  match existingNamespaces with
  | [] => (None, st)
  | nsName :: rest =>
      if isAdminNamespace admins nsName then
        match VNIDMap st !! nsName with
        | Some _ =>
            match revokeVNID nsName st with
            | (Some e, st1) => (Some e, st1)
            | (None, st1) => StartMasterNamespaces admins rest st1
            end
        | None => StartMasterNamespaces admins rest st
        end
      else
        match VNIDMap st !! nsName with
        | Some _ => StartMasterNamespaces admins rest st
        | None =>
            match assignVNID nsName st with
            | (Some e, st1) => (Some e, st1)
            | (None, st1) => StartMasterNamespaces admins rest st1
            end
        end
  end.

(** One event of [watchNetworks]; errors are logged and dropped. *)
Definition watchNetworks (added : bool) (name : string) (st : vstate) : vstate :=
  if added then (assignVNID name st).2 else (revokeVNID name st).2.

End Registry.

(** A node's flow rules for services. *)
Record service := mkService { Namespace : string; SvcIP : string; Protocol : string; Port : Z }.

Inductive flowCall :=
| AddServiceOFRules (netid : Z) (ip proto : string) (port : Z)
| DelServiceOFRules (netid : Z) (ip proto : string) (port : Z).

(** One event of the node's [watchVnids]. *)
Definition watchVnids (added : bool) (name : string) (netid : Z) (m : gmap string Z) : gmap string Z :=
  if added then <[name := netid]> m else delete name m.

(** One event of the node's [watchServices]: [VNIDMap[ns]] is 0 for a
    namespace the map does not hold. *)
Definition watchServices (added : bool) (svc : service) (m : gmap string Z) : flowCall :=
  let netid := default 0%Z (m !! Namespace svc) in
  if added then AddServiceOFRules netid (SvcIP svc) (Protocol svc) (Port svc)
  else DelServiceOFRules netid (SvcIP svc) (Protocol svc) (Port svc).

(** [StartMaster] fills [VNIDMap] from [GetNetNamespaces]: the map
    mirrors the registry. *)
Definition mirror (st : vstate) : Prop := VNIDMap st = netNamespaces st.

(** A registry whose calls all succeed, and one where
    [WriteNetNamespace] fails. *)
Definition vEnvOK : vnidEnv :=
  {| nsGetOK := fun _ => true; nsWriteOK := fun _ _ => true; nsDeleteOK := fun _ => true |}.
Definition vEnvWriteFails : vnidEnv :=
  {| nsGetOK := fun _ => true; nsWriteOK := fun _ _ => false; nsDeleteOK := fun _ => true |}.
(** No namespace yet, ids 10 and 11 free; then the admin namespace
    [default] holding id 12. *)
Definition vst0 : vstate := mkV ∅ ∅ [10%Z; 11%Z].
Definition vst1 : vstate :=
  mkV {[ "default"%string := 12%Z ]} {[ "default"%string := 12%Z ]} [10%Z; 11%Z].

End VNID.

(* ------------------------------------------------------------------ *)
(** ** Runs of the watcher *)

(** The events delivered to the two watch loops. *)
Inductive watchEvent :=
| HostSubnetEvent (deleted : bool) (hostIP : string) (egressIPs : list string)
| NetNamespaceEvent (deleted : bool) (netID : Z) (egressIPs : list string).

Definition handle (c : watcherCfg) (e : watchEvent) : M unit :=
  match e with
  | HostSubnetEvent d h ips => handleHostSubnet c d h ips
  | NetNamespaceEvent d v ips => handleNetNamespace c d v ips
  end.

(** States the watcher reaches from [newEgressIPWatcher] by handling events,
    one at a time under the lock. *)
Inductive reachable (c : watcherCfg) : St -> Prop :=
| reachable_init : reachable c initSt
| reachable_step s e : reachable c s -> reachable c ((handle c e s).1.2).

(** Calls that bind, unbind or NAT the address [ip] on this host. *)
Definition touches (ip : string) (e : ev) : bool :=
  match e with
  | EvCall (CAddrAdd i) | EvCall (CAddrDel i)
  | EvCall (CAddEgressIPRules i _) | EvCall (CDeleteEgressIPRules i _)
  | EvCall (CTestChan _ i) => String.eqb i ip
  | _ => false
  end.

(** Weakest precondition of a watcher computation: [Q] holds of its result,
    final state and emitted events. *)
Definition wp {A} (m : M A) (Q : A -> St -> list ev -> Prop) (s : St) : Prop :=
  match m s with (a, s', es) => Q a s' es end.

(* ------------------------------------------------------------------ *)
(** ** A concrete watcher, used to evaluate scenarios *)

(** Every kernel and NAT call succeeds. *)
Definition kernelOK : kernel := {|
  k_parse := fun _ => true; k_contains := fun _ => true;
  k_addrAdd := fun _ => AddrOK; k_addrDel := fun _ => AddrOK;
  k_iptAdd := fun _ _ => true; k_iptDel := fun _ _ => true |}.

(** Node [10.0.0.1], masquerade bit [1 << 0]. *)
Definition cfgLocal : watcherCfg := {|
  localIP := "10.0.0.1"; masqueradeBit := masqueradeBitOf (Some 0%Z);
  testMode := false; kern := kernelOK |}.

(** The same node, where [netlink] reports every address as outside the
    node's network ([k_contains] fails). *)
Definition cfgOutOfRange : watcherCfg := {|
  localIP := "10.0.0.1"; masqueradeBit := masqueradeBitOf (Some 0%Z);
  testMode := false;
  kern := {| k_parse := fun _ => true; k_contains := fun _ => false;
             k_addrAdd := fun _ => AddrOK; k_addrDel := fun _ => AddrOK;
             k_iptAdd := fun _ _ => true; k_iptDel := fun _ _ => true |} |}.

(** Run a list of events from a state; the final state and all events. *)
Fixpoint runEvents (c : watcherCfg) (es : list watchEvent) (s : St) : St * list ev :=
  match es with
  | [] => (s, [])
  | e :: rest =>
      match handle c e s with
      | (_, s1, out1) => let '(s2, out2) := runEvents c rest s1 in (s2, out1 ++ out2)
      end
  end.

(** The egress-IP record of namespace [v], as [(assignedIP, nodeIP)]. *)
Definition egressOf (s : St) (v : Z) : option (string * string) :=
  match namespacesByVNID s !! v with
  | Some id => Some (NamespaceEgress.assignedIP (nsAt s id), NamespaceEgress.nodeIP (nsAt s id))
  | None => None
  end.

(** The node IP a namespace of VNID [v] is routed through once node [n]
    serves [x]: [n], unless [n] is this node and binding [x] here fails. *)
Definition servedBy (c : watcherCfg) (v : Z) (n x : string) : string :=
  if String.eqb n (localIP c) then
    match (assignEgressIP c x (getMarkForVNID v (masqueradeBit c)) initSt).1.1 with
    | None => n
    | Some _ => ""
    end
  else n.

(** Node [10.0.0.1] (this node) serves [10.0.0.5], which namespace 7 then
    requests. *)
Definition scnLocalServed : list watchEvent :=
  [HostSubnetEvent false "10.0.0.1" ["10.0.0.5"];
   NetNamespaceEvent false 7 ["10.0.0.5"]].

(** Node [10.0.0.2] serves [10.0.0.5] and [10.0.0.6]; namespace 7 requests
    [10.0.0.5]; the node then drops [10.0.0.5] from its list. *)
Definition scnWithdraw : list watchEvent :=
  [HostSubnetEvent false "10.0.0.2" ["10.0.0.5"; "10.0.0.6"];
   NetNamespaceEvent false 7 ["10.0.0.5"];
   HostSubnetEvent false "10.0.0.2" ["10.0.0.6"]].

(** Node [10.0.0.2] serves [10.0.0.5], namespace 7 requests it, the node
    clears its list, then namespace 7's [EgressIPs] is emptied. *)
Definition scnClear : list watchEvent :=
  [HostSubnetEvent false "10.0.0.2" ["10.0.0.5"];
   NetNamespaceEvent false 7 ["10.0.0.5"];
   HostSubnetEvent false "10.0.0.2" [];
   NetNamespaceEvent false 7 []].

(* ------------------------------------------------------------------ *)
(** ** Invariants and auxiliary definitions *)

(** Every egress-IP claim of a node is one it requests, except those [X]
    allows while an update is half done. *)
Definition claimsOK (X : string -> nat -> Prop) (s : St) : Prop :=
  forall ip nid, nodesByEgressIP s !! ip = Some nid ->
    ip ∈ NodeEgress.requestedIPs (nodeAt s nid) \/ X ip nid.

(** Node registries point to allocated objects, and [nodesByNodeIP] is
    keyed by the object's own [nodeIP]. *)
Definition idsOK (s : St) : Prop :=
  (forall ip nid, nodesByEgressIP s !! ip = Some nid -> nid < nextNode s) /\
  (forall n nid, nodesByNodeIP s !! n = Some nid ->
     nid < nextNode s /\ NodeEgress.nodeIP (nodeAt s nid) = n).

(** A namespace routed through a node holds its egress IP in
    [namespacesByEgressIP], and that node claims the IP and has it
    assigned. *)
Definition servedOK (s : St) : Prop :=
  forall id, NamespaceEgress.nodeIP (nsAt s id) <> "" ->
    namespacesByEgressIP s !! NamespaceEgress.assignedIP (nsAt s id) = Some id /\
    exists nid, nodesByEgressIP s !! NamespaceEgress.assignedIP (nsAt s id) = Some nid /\
      NodeEgress.nodeIP (nodeAt s nid) = NamespaceEgress.nodeIP (nsAt s id) /\
      NamespaceEgress.assignedIP (nsAt s id) ∈ NodeEgress.assignedIPs (nodeAt s nid).

(** The watcher invariant: claims are requested (up to [X]), registries
    are well formed, and routed namespaces are served. *)
Definition InvA (X : string -> nat -> Prop) (s : St) : Prop :=
  claimsOK X s /\ idsOK s /\ servedOK s.

(** Claims of node [id] on the IPs [L] it has just stopped requesting. *)
Definition pendingX (id : nat) (L : list string) : string -> nat -> Prop :=
  fun ip nid => nid = id /\ In ip L.

(** Node [10.0.0.2] has claimed [10.0.0.5]. *)
Definition stClaimed : St :=
  (runEvents cfgLocal [HostSubnetEvent false "10.0.0.2" ["10.0.0.5"]] initSt).1.

(** The value of a lowercase hexadecimal digit. *)
Definition hex_val (a : ascii) : Z :=
  match a with
  | "0" => 0 | "1" => 1 | "2" => 2 | "3" => 3 | "4" => 4 | "5" => 5
  | "6" => 6 | "7" => 7 | "8" => 8 | "9" => 9 | "a" => 10 | "b" => 11
  | "c" => 12 | "d" => 13 | "e" => 14 | _ => 15
  end%char%Z.

(** The [k]-th hexadecimal digit of [v], from the least significant. *)
Definition nibble (k : nat) (v : Z) : Z := Z.land (Z.shiftr v (4 * Z.of_nat k)) 15.

(** The part of the state no egress-IP step changes: the node and namespace
    registries by node IP and VNID, the allocation counters, and of every
    object its identity fields, its requested IPs and whether it exists. *)
Definition wframe (s s' : St) : Prop :=
  nodesByNodeIP s' = nodesByNodeIP s /\ nextNode s' = nextNode s /\
  namespacesByVNID s' = namespacesByVNID s /\ nextNs s' = nextNs s /\
  (forall id, NodeEgress.nodeIP (nodeAt s' id) = NodeEgress.nodeIP (nodeAt s id) /\
              NodeEgress.requestedIPs (nodeAt s' id) = NodeEgress.requestedIPs (nodeAt s id) /\
              (is_Some (nodes s !! id) -> is_Some (nodes s' !! id))) /\
  (forall id, NamespaceEgress.vnid (nsAt s' id) = NamespaceEgress.vnid (nsAt s id) /\
              NamespaceEgress.requestedIP (nsAt s' id) = NamespaceEgress.requestedIP (nsAt s id) /\
              (is_Some (nss s !! id) -> is_Some (nss s' !! id))).

(** [maybeAddEgressIP] and [deleteEgressIP] change only the [assignedIPs]
    of node objects and the [assignedIP]/[nodeIP] of namespace objects. *)
Definition sub_frame (s s' : St) : Prop :=
  wframe s s' /\
  nodesByEgressIP s' = nodesByEgressIP s /\ namespacesByEgressIP s' = namespacesByEgressIP s.

(** Namespace 7 requests [10.0.0.5], then namespace 8 requests [10.0.0.6]. *)
Definition stTwoNs : St :=
  (runEvents cfgLocal [NetNamespaceEvent false 7 ["10.0.0.5"];
                       NetNamespaceEvent false 8 ["10.0.0.6"]] initSt).1.

(** The node side of the state: registrations, claims and requested IPs. *)
Definition nodeSide (s s' : St) : Prop :=
  nodesByNodeIP s' = nodesByNodeIP s /\ nodesByEgressIP s' = nodesByEgressIP s /\
  forall id, NodeEgress.requestedIPs (nodeAt s' id) = NodeEgress.requestedIPs (nodeAt s id).

(** The namespace side of the state: registrations, requests and requested IPs. *)
Definition nsSide (s s' : St) : Prop :=
  namespacesByVNID s' = namespacesByVNID s /\ namespacesByEgressIP s' = namespacesByEgressIP s /\
  forall id, NamespaceEgress.requestedIP (nsAt s' id) = NamespaceEgress.requestedIP (nsAt s id).


(* ================================================================== *)
(** * Properties *)

(* ------------------------------------------------------------------ *)
(** ** Marks *)

Lemma land_pow2_zero (a k : Z) : (0 <= k)%Z ->
  Z.land a (2 ^ k) = 0%Z <-> Z.testbit a k = false.
Proof.
  intros Hk; split; intros H.
  - assert (Hb := Z.land_spec a (2 ^ k) k).
    rewrite H, Z.bits_0, Z.pow2_bits_true in Hb by lia.
    rewrite andb_true_r in Hb; auto.
  - apply Z.bits_inj'; intros n Hn.
    rewrite Z.land_spec, Z.bits_0.
    destruct (Z.eq_dec n k) as [->|Hne].
    + now rewrite H.
    + rewrite Z.pow2_bits_false by lia. apply andb_false_r.
Qed.

Lemma testbit_small (a n k : Z) : (0 <= a < 2 ^ n)%Z -> (0 <= n <= k)%Z ->
  Z.testbit a k = false.
Proof.
  intros Ha Hk.
  rewrite <- (Z.mod_small a (2 ^ k)).
  - apply Z.mod_pow2_bits_high; lia.
  - split; [lia|].
    apply Z.lt_le_trans with (2 ^ n)%Z; [lia|].
    apply Z.pow_le_mono_r; lia.
Qed.

Lemma lor_low_bit24 (v : Z) : (0 <= v < 2 ^ 24)%Z ->
  Z.lor v 0x01000000%Z = (v + 2 ^ 24)%Z.
Proof.
  intros Hv.
  change 0x01000000%Z with (2 ^ 24)%Z.
  assert (Hl : Z.land v (2 ^ 24) = 0%Z).
  { apply land_pow2_zero; [lia|]. apply (testbit_small v 24); lia. }
  rewrite <- Z.lxor_lor by exact Hl.
  rewrite <- Z.add_nocarry_lxor by exact Hl. reflexivity.
Qed.

Lemma lxor_set_bit (w k : Z) : (0 <= k)%Z -> Z.testbit w k = true ->
  Z.lxor w (2 ^ k) = (w - 2 ^ k)%Z.
Proof.
  intros Hk Hw.
  rewrite Z.sub_nocarry_ldiff.
  - apply Z.bits_inj'; intros n Hn.
    rewrite Z.lxor_spec, Z.ldiff_spec.
    destruct (Z.eq_dec n k) as [->|Hne].
    + rewrite Z.pow2_bits_true, Hw by lia. reflexivity.
    + rewrite Z.pow2_bits_false by lia. now destruct (Z.testbit w n).
  - apply Z.bits_inj'; intros n Hn.
    rewrite Z.ldiff_spec, Z.bits_0.
    destruct (Z.eq_dec n k) as [->|Hne].
    + rewrite Hw. apply andb_false_r.
    + rewrite Z.pow2_bits_false by lia. reflexivity.
Qed.

Lemma masqueradeBitOf_cases (o : option Z) :
  masqueradeBitOf o = 0%Z \/
  exists k, (0 <= k < 32)%Z /\ masqueradeBitOf o = (2 ^ k)%Z.
Proof.
  destruct o as [b|]; simpl; [|auto].
  destruct (Z.ltb_spec (b mod 2 ^ 32) 32) as [Hlt|Hge]; [|auto].
  right. exists (b mod 2 ^ 32)%Z. split.
  - split; [apply Z.mod_pos_bound; lia | exact Hlt].
  - apply Z.shiftl_1_l.
Qed.

Lemma getMarkValue_zero_r (v : Z) :
  getMarkValue v 0 = (if Z.eqb v 0 then 0xff000000 else v)%Z.
Proof.
  unfold getMarkValue. rewrite !Z.land_0_r. simpl.
  destruct (Z.eqb v 0); reflexivity.
Qed.

(** Closed form of [getMarkValue] for a VNID and a masquerade bit [2^k]. *)
Lemma getMarkValue_pow2 (v k : Z) : (0 <= v < 2 ^ 24)%Z -> (0 <= k < 32)%Z ->
  getMarkValue v (2 ^ k) =
  (if Z.eqb v 0 then (if Z.leb 24 k then 0xff000000 - 2 ^ k else 0xff000000)
   else if Z.ltb k 24 && Z.testbit v k then v + 2 ^ 24 - 2 ^ k else v)%Z.
Proof.
  intros Hv Hk.
  destruct (Z.eqb_spec v 0) as [->|Hv0].
  - assert (Hn : exists n : nat, k = Z.of_nat n /\ (n < 32)%nat)
      by (exists (Z.to_nat k); lia).
    destruct Hn as [n [-> Hn]].
    do 32 (destruct n as [|n]; [vm_compute; reflexivity|]). lia.
  - unfold getMarkValue.
    rewrite (proj2 (Z.eqb_neq v 0) Hv0).
    destruct (Z.ltb_spec k 24) as [Hlt|Hge].
    + destruct (Z.testbit v k) eqn:Hb; simpl.
      * assert (Hl : Z.land v (2 ^ k) <> 0%Z).
        { intros H. apply land_pow2_zero in H; [congruence | lia]. }
        rewrite (proj2 (Z.eqb_neq _ 0) Hl). simpl.
        rewrite lxor_set_bit by (try lia; rewrite Z.lor_spec, Hb; reflexivity).
        rewrite lor_low_bit24 by lia. lia.
      * rewrite (proj2 (land_pow2_zero v k ltac:(lia)) Hb). reflexivity.
    + rewrite (proj2 (land_pow2_zero v k ltac:(lia)))
        by (apply (testbit_small v 24); lia).
      rewrite andb_false_l. reflexivity.
Qed.

Lemma getMarkValue_land (v k : Z) : (0 <= k)%Z ->
  Z.land (getMarkValue v (2 ^ k)) (2 ^ k) = 0%Z.
Proof.
  intros Hk. unfold getMarkValue.
  set (w := if Z.eqb v 0 then 0xff000000%Z else v).
  destruct (Z.eqb (Z.land w (2 ^ k)) 0) eqn:Hl; simpl.
  - now apply Z.eqb_eq in Hl.
  - apply land_pow2_zero; [lia|].
    assert (Hw : Z.testbit w k = true).
    { destruct (Z.testbit w k) eqn:Hb; [reflexivity|].
      apply land_pow2_zero in Hb; [|lia]. rewrite Hb in Hl. discriminate. }
    rewrite Z.lxor_spec, Z.lor_spec, Hw, Z.pow2_bits_true by lia. reflexivity.
Qed.

(** Bounds and injectivity of the numeric mark, masquerade bit [2^k] or 0. *)
Lemma getMarkValue_range (v mb : Z) :
  (0 <= v < 2 ^ 24)%Z ->
  (mb = 0%Z \/ exists k, (0 <= k < 32)%Z /\ mb = (2 ^ k)%Z) ->
  (0 < getMarkValue v mb < 2 ^ 32)%Z.
Proof.
  intros Hv [->|[k [Hk ->]]].
  - rewrite getMarkValue_zero_r. destruct (Z.eqb_spec v 0); lia.
  - rewrite getMarkValue_pow2 by lia.
    assert (1 <= 2 ^ k <= 2 ^ 31)%Z.
    { split; [apply (Z.pow_le_mono_r 2 0 k); lia | apply Z.pow_le_mono_r; lia]. }
    destruct (Z.eqb_spec v 0); [destruct (Z.leb_spec 24 k)|].
    + assert (2 ^ 24 <= 2 ^ k)%Z by (apply Z.pow_le_mono_r; lia). lia.
    + lia.
    + destruct (Z.ltb_spec k 24); simpl; [|lia].
      assert (2 ^ k <= 2 ^ 23)%Z by (apply Z.pow_le_mono_r; lia).
      destruct (Z.testbit v k); lia.
Qed.

Lemma getMarkValue_inj (v1 v2 mb : Z) :
  (0 <= v1 < 2 ^ 24)%Z -> (0 <= v2 < 2 ^ 24)%Z ->
  (mb = 0%Z \/ exists k, (0 <= k < 32)%Z /\ mb = (2 ^ k)%Z) ->
  getMarkValue v1 mb = getMarkValue v2 mb -> v1 = v2.
Proof.
  intros H1 H2 [->|[k [Hk ->]]] Heq.
  - rewrite !getMarkValue_zero_r in Heq.
    destruct (Z.eqb_spec v1 0), (Z.eqb_spec v2 0); lia.
  - rewrite !getMarkValue_pow2 in Heq by lia.
    assert (1 <= 2 ^ k <= 2 ^ 31)%Z.
    { split; [apply (Z.pow_le_mono_r 2 0 k); lia | apply Z.pow_le_mono_r; lia]. }
    assert (Hbit : forall v, (0 <= v)%Z -> Z.testbit v k = true -> (2 ^ k <= v)%Z).
    { intros v Hv Hb. destruct (Z.le_gt_cases (2 ^ k) v) as [|Hlt]; [assumption|].
      rewrite (testbit_small v k k) in Hb by lia. discriminate. }
    destruct (Z.leb_spec 24 k) as [Hge|Hlt].
    + assert (2 ^ 24 <= 2 ^ k)%Z by (apply Z.pow_le_mono_r; lia).
      replace (Z.ltb k 24) with false in Heq by (symmetry; apply Z.ltb_ge; lia).
      simpl in Heq.
      destruct (Z.eqb_spec v1 0), (Z.eqb_spec v2 0); lia.
    + replace (Z.ltb k 24) with true in Heq by (symmetry; apply Z.ltb_lt; lia).
      simpl in Heq.
      assert (2 ^ k <= 2 ^ 23)%Z by (apply Z.pow_le_mono_r; lia).
      destruct (Z.eqb_spec v1 0), (Z.eqb_spec v2 0);
        destruct (Z.testbit v1 k) eqn:B1; destruct (Z.testbit v2 k) eqn:B2;
        try (specialize (Hbit v1 ltac:(lia) B1));
        try (specialize (Hbit v2 ltac:(lia) B2)); lia.
Qed.

Lemma hex_val_digit (d : Z) : (0 <= d < 16)%Z -> hex_val (hex_digit d) = d.
Proof.
  intros Hd.
  assert (Hn : exists n : nat, d = Z.of_nat n /\ (n < 16)%nat)
    by (exists (Z.to_nat d); lia).
  destruct Hn as [n [-> Hn]].
  do 16 (destruct n as [|n]; [reflexivity|]). lia.
Qed.

Lemma nibble_range (k : nat) (v : Z) : (0 <= nibble k v < 16)%Z.
Proof.
  unfold nibble. change 15%Z with (Z.ones 4).
  rewrite Z.land_ones by lia. apply Z.mod_pos_bound. lia.
Qed.

Lemma testbit_nibble (k : nat) (v m : Z) : (0 <= m < 4)%Z ->
  Z.testbit (nibble k v) m = Z.testbit v (m + 4 * Z.of_nat k).
Proof.
  intros Hm. unfold nibble. change 15%Z with (Z.ones 4).
  rewrite Z.land_spec, Z.shiftr_spec, Z.ones_spec_low by lia.
  apply andb_true_r.
Qed.

Lemma hex_digits_nibbles (n : nat) (a b : Z) :
  hex_digits n a = hex_digits n b -> forall k, (k < n)%nat -> nibble k a = nibble k b.
Proof.
  induction n as [|n IH]; intros H k Hk; [lia|].
  simpl in H. injection H as Hd Hr.
  destruct (Nat.eq_dec k n) as [->|Hne].
  - rewrite <- (hex_val_digit (nibble n a)), <- (hex_val_digit (nibble n b))
      by apply nibble_range.
    unfold nibble. now rewrite Hd.
  - apply IH; [exact Hr | lia].
Qed.

(** ["0x%08x"] is injective on [uint32] values. *)
Lemma hex_digits8_inj (a b : Z) : (0 <= a < 2 ^ 32)%Z -> (0 <= b < 2 ^ 32)%Z ->
  hex_digits 8 a = hex_digits 8 b -> a = b.
Proof.
  intros Ha Hb H.
  pose proof (hex_digits_nibbles 8 a b H) as Hn.
  apply Z.bits_inj'; intros j Hj.
  destruct (Z.lt_ge_cases j 32) as [Hlt|Hge].
  - set (k := Z.to_nat (j / 4)).
    assert (Hj' : j = (j mod 4 + 4 * Z.of_nat k)%Z).
    { unfold k. rewrite Z2Nat.id by (apply Z.div_pos; lia).
      pose proof (Z.div_mod j 4). lia. }
    assert (Hm : (0 <= j mod 4 < 4)%Z) by (apply Z.mod_pos_bound; lia).
    rewrite Hj', <- !testbit_nibble by exact Hm.
    rewrite (Hn k); [reflexivity|].
    unfold k. assert (j / 4 < 8)%Z by (apply Z.div_lt_upper_bound; lia). lia.
  - rewrite (testbit_small a 32 j), (testbit_small b 32 j) by lia. reflexivity.
Qed.

Lemma prefix_0x_inj (s1 s2 : string) : ("0x" ++ s1)%string = ("0x" ++ s2)%string -> s1 = s2.
Proof. intros H. injection H as H. exact H. Qed.

(** C6: for every masquerade bit the watcher can hold ([1 << b] stored in a
    [uint32], or no bit at all) and every VNID in [[0, 2^24-1]],
    [getMarkForVNID] yields a non-zero mark with the masquerade bit clear,
    and distinct VNIDs yield distinct marks. *)
Theorem getMarkForVNID_valid (o : option Z) (v1 v2 : Z)
  (H1 : (0 <= v1 <= 2 ^ 24 - 1)%Z) (H2 : (0 <= v2 <= 2 ^ 24 - 1)%Z) :
  getMarkValue v1 (masqueradeBitOf o) <> 0%Z /\
  Z.land (getMarkValue v1 (masqueradeBitOf o)) (masqueradeBitOf o) = 0%Z /\
  (getMarkValue v1 (masqueradeBitOf o) = getMarkValue v2 (masqueradeBitOf o) -> v1 = v2) /\
  (getMarkForVNID v1 (masqueradeBitOf o) = getMarkForVNID v2 (masqueradeBitOf o) -> v1 = v2).
Proof.
  pose proof (masqueradeBitOf_cases o) as Hmb.
  assert (Hinj : getMarkValue v1 (masqueradeBitOf o) = getMarkValue v2 (masqueradeBitOf o)
                 -> v1 = v2) by (apply getMarkValue_inj; [lia | lia | exact Hmb]).
  pose proof (getMarkValue_range v1 _ ltac:(lia) Hmb) as R1.
  pose proof (getMarkValue_range v2 _ ltac:(lia) Hmb) as R2.
  split; [lia|]. split; [|split; [exact Hinj|]].
  - destruct Hmb as [->|[k [Hk ->]]]; [apply Z.land_0_r | apply getMarkValue_land; lia].
  - unfold getMarkForVNID. intros Hs.
    apply Hinj, hex_digits8_inj; [lia | lia |].
    exact (prefix_0x_inj _ _ Hs).
Qed.

(* ------------------------------------------------------------------ *)
(** ** Weakest preconditions *)

Lemma wp_bind_intro {A B} (m : M A) (k : A -> M B) Q s :
  wp m (fun a s1 e1 => wp (k a) (fun b s2 e2 => Q b s2 (e1 ++ e2)) s1) s ->
  wp (m ≫= k) Q s.
Proof.
  unfold wp, mbind, M_bind.
  destruct (m s) as [[a s1] e1]. destruct (k a s1) as [[b s2] e2]. auto.
Qed.

Lemma wp_ret_intro {A} (a : A) Q s : Q a s [] -> wp (mret a) Q s.
Proof. auto. Qed.

Lemma wp_getS_intro Q s : Q s s [] -> wp getS Q s.
Proof. auto. Qed.

Lemma wp_modify_intro f Q s : Q tt (f s) [] -> wp (modifyS f) Q s.
Proof. auto. Qed.

Lemma wp_emit_intro e Q s : Q tt s [e] -> wp (emit e) Q s.
Proof. auto. Qed.

Lemma wp_newNode_intro nd Q s :
  Q (nextNode s) (upd_nextNode S (upd_nodes (<[nextNode s := nd]>) s)) [] ->
  wp (newNode nd) Q s.
Proof. auto. Qed.

Lemma wp_newNs_intro ns Q s :
  Q (nextNs s) (upd_nextNs S (upd_nss (<[nextNs s := ns]>) s)) [] ->
  wp (newNs ns) Q s.
Proof. auto. Qed.

Lemma wp_mono {A} (m : M A) (Q R : A -> St -> list ev -> Prop) s :
  (forall a s' es, Q a s' es -> R a s' es) -> wp m Q s -> wp m R s.
Proof. unfold wp. destruct (m s) as [[a s'] es]. auto. Qed.

(** A loop over a list, with an invariant indexed by the items left. *)
Lemma wp_forM_ (L : list string -> St -> list ev -> Prop) (body : string -> M unit) :
  (forall x rest s es, L (x :: rest) s es ->
     wp (body x) (fun _ s' es' => L rest s' (es ++ es')) s) ->
  forall l s es, L l s es -> wp (forM_ l body) (fun _ s' es' => L [] s' (es ++ es')) s.
Proof.
  intros Hbody l. induction l as [|x l IH]; intros s es HL; simpl.
  - apply wp_ret_intro. now rewrite app_nil_r.
  - apply wp_bind_intro. eapply wp_mono; [|apply (Hbody x l s es HL)].
    intros [] s1 e1 H1. cbv beta.
    eapply wp_mono; [|apply (IH s1 (es ++ e1) H1)].
    intros [] s2 e2 H2. now rewrite app_assoc.
Qed.


(* ------------------------------------------------------------------ *)
(** ** Local IP assignment *)

(** [assignEgressIP] and [releaseEgressIP] read no watcher state and write
    none. *)
Lemma assignEgressIP_indep c ip mark s :
  assignEgressIP c ip mark s =
  (let '(r, _, es) := assignEgressIP c ip mark initSt in (r, s, es)).
Proof.
  unfold assignEgressIP.
  destruct (String.eqb ip (localIP c)); [reflexivity|].
  destruct (testMode c); [reflexivity|].
  destruct (k_parse (kern c) ip); [|reflexivity].
  destruct (k_contains (kern c) ip); [|reflexivity].
  simpl. destruct (k_addrAdd (kern c) ip); simpl; [| |reflexivity];
    destruct (k_iptAdd (kern c) ip mark); reflexivity.
Qed.

Lemma releaseEgressIP_indep c ip mark s :
  releaseEgressIP c ip mark s =
  (let '(r, _, es) := releaseEgressIP c ip mark initSt in (r, s, es)).
Proof.
  unfold releaseEgressIP.
  destruct (String.eqb ip (localIP c)); [reflexivity|].
  destruct (testMode c); [reflexivity|].
  destruct (k_parse (kern c) ip); [|reflexivity].
  simpl. destruct (k_addrDel (kern c) ip); simpl; [| |reflexivity];
    destruct (k_iptDel (kern c) ip mark); reflexivity.
Qed.

Lemma wp_assignEgressIP_intro c ip mark Q s :
  (let '(r, _, es) := assignEgressIP c ip mark initSt in Q r s es) ->
  wp (assignEgressIP c ip mark) Q s.
Proof.
  unfold wp. rewrite (assignEgressIP_indep c ip mark s).
  destruct (assignEgressIP c ip mark initSt) as [[r s0] es]. auto.
Qed.

Lemma wp_releaseEgressIP_intro c ip mark Q s :
  (let '(r, _, es) := releaseEgressIP c ip mark initSt in Q r s es) ->
  wp (releaseEgressIP c ip mark) Q s.
Proof.
  unfold wp. rewrite (releaseEgressIP_indep c ip mark s).
  destruct (releaseEgressIP c ip mark initSt) as [[r s0] es]. auto.
Qed.

(** Every call the two emit is about their own address. *)
Lemma assignEgressIP_touches c ip mark i :
  Forall (fun e => touches i e = true -> i = ip) (assignEgressIP c ip mark initSt).2.
Proof.
  assert (Ht : forall j, (String.eqb j i = true -> i = j)).
  { intros j H. apply String.eqb_eq in H. congruence. }
  unfold assignEgressIP.
  destruct (String.eqb ip (localIP c)); [constructor|].
  destruct (testMode c); [repeat constructor; apply Ht|].
  destruct (k_parse (kern c) ip); [|constructor].
  destruct (k_contains (kern c) ip); [|constructor].
  simpl. destruct (k_addrAdd (kern c) ip); simpl;
    try destruct (k_iptAdd (kern c) ip mark); simpl;
    repeat constructor; simpl; intros; first [apply Ht; assumption | discriminate].
Qed.

Lemma releaseEgressIP_touches c ip mark i :
  Forall (fun e => touches i e = true -> i = ip) (releaseEgressIP c ip mark initSt).2.
Proof.
  assert (Ht : forall j, (String.eqb j i = true -> i = j)).
  { intros j H. apply String.eqb_eq in H. congruence. }
  unfold releaseEgressIP.
  destruct (String.eqb ip (localIP c)); [constructor|].
  destruct (testMode c); [repeat constructor; apply Ht|].
  destruct (k_parse (kern c) ip); [|constructor].
  simpl. destruct (k_addrDel (kern c) ip); simpl;
    try destruct (k_iptDel (kern c) ip mark); simpl;
    repeat constructor; simpl; intros; first [apply Ht; assumption | discriminate].
Qed.

(** C8 (as the code has it): asked to assign the node's own IP,
    [assignEgressIP] fails with the self-IP error; asked to release it,
    [releaseEgressIP] returns success.  Neither makes any call: no address is
    added or removed and no NAT rule is installed or deleted. *)
Theorem self_ip_never_assigned_or_released (c : watcherCfg) (ip mark : string) (s : St)
  (Hself : ip = localIP c) :
  assignEgressIP c ip mark s = (Some ESelfIP, s, []) /\
  releaseEgressIP c ip mark s = (None, s, []).
Proof.
  subst ip. unfold assignEgressIP, releaseEgressIP.
  rewrite String.eqb_refl. split; reflexivity.
Qed.

Ltac wp_step :=
  lazymatch goal with
  | |- wp (mbind _ _) _ _ => apply wp_bind_intro
  | |- wp getS _ _ => apply wp_getS_intro
  | |- wp (modifyS _) _ _ => apply wp_modify_intro
  | |- wp (emit _) _ _ => apply wp_emit_intro
  | |- wp (mret _) _ _ => apply wp_ret_intro
  | |- wp (newNode _) _ _ => apply wp_newNode_intro
  | |- wp (newNs _) _ _ => apply wp_newNs_intro
  | |- wp (storeNode _ _) _ _ => unfold storeNode
  | |- wp (storeNs _ _) _ _ => unfold storeNs
  | |- wp (assignEgressIP _ _ _) _ _ =>
      apply wp_assignEgressIP_intro; destruct (assignEgressIP _ _ _ initSt) as [[? ?] ?] eqn:?
  | |- wp (releaseEgressIP _ _ _) _ _ =>
      apply wp_releaseEgressIP_intro; destruct (releaseEgressIP _ _ _ initSt) as [[? ?] ?] eqn:?
  | |- wp (if ?b then _ else _) _ _ => destruct b eqn:?
  | |- wp (match ?x with _ => _ end) _ _ => destruct x eqn:?
  end; cbv beta iota.

Ltac wp_run := repeat wp_step.

Lemma nsAt_upd_nodes f s : nsAt (upd_nodes f s) = nsAt s.
Proof. reflexivity. Qed.
Lemma nsAt_upd_nodesByNodeIP f s : nsAt (upd_nodesByNodeIP f s) = nsAt s.
Proof. reflexivity. Qed.
Lemma nsAt_upd_nodesByEgressIP f s : nsAt (upd_nodesByEgressIP f s) = nsAt s.
Proof. reflexivity. Qed.
Lemma nsAt_upd_nextNode f s : nsAt (upd_nextNode f s) = nsAt s.
Proof. reflexivity. Qed.
Lemma nsAt_upd_nextNs f s : nsAt (upd_nextNs f s) = nsAt s.
Proof. reflexivity. Qed.
Lemma nsAt_upd_namespacesByVNID f s : nsAt (upd_namespacesByVNID f s) = nsAt s.
Proof. reflexivity. Qed.
Lemma nsAt_upd_namespacesByEgressIP f s : nsAt (upd_namespacesByEgressIP f s) = nsAt s.
Proof. reflexivity. Qed.
Lemma nodeAt_upd_nss f s : nodeAt (upd_nss f s) = nodeAt s.
Proof. reflexivity. Qed.
Lemma nodeAt_upd_nodesByNodeIP f s : nodeAt (upd_nodesByNodeIP f s) = nodeAt s.
Proof. reflexivity. Qed.
Lemma nodeAt_upd_nodesByEgressIP f s : nodeAt (upd_nodesByEgressIP f s) = nodeAt s.
Proof. reflexivity. Qed.
Lemma nodeAt_upd_nextNode f s : nodeAt (upd_nextNode f s) = nodeAt s.
Proof. reflexivity. Qed.
Lemma nodeAt_upd_nextNs f s : nodeAt (upd_nextNs f s) = nodeAt s.
Proof. reflexivity. Qed.
Lemma nodeAt_upd_namespacesByVNID f s : nodeAt (upd_namespacesByVNID f s) = nodeAt s.
Proof. reflexivity. Qed.
Lemma nodeAt_upd_namespacesByEgressIP f s : nodeAt (upd_namespacesByEgressIP f s) = nodeAt s.
Proof. reflexivity. Qed.
Lemma nodeAt_upd_nodes_eq s id v : nodeAt (upd_nodes (<[id := v]>) s) id = v.
Proof. unfold nodeAt; simpl. now rewrite lookup_insert_eq. Qed.
Lemma nodeAt_upd_nodes_ne s id j v : id <> j -> nodeAt (upd_nodes (<[id := v]>) s) j = nodeAt s j.
Proof. intros H. unfold nodeAt; simpl. now rewrite lookup_insert_ne. Qed.
Lemma nsAt_upd_nss_eq s id v : nsAt (upd_nss (<[id := v]>) s) id = v.
Proof. unfold nsAt; simpl. now rewrite lookup_insert_eq. Qed.
Lemma nsAt_upd_nss_ne s id j v : id <> j -> nsAt (upd_nss (<[id := v]>) s) j = nsAt s j.
Proof. intros H. unfold nsAt; simpl. now rewrite lookup_insert_ne. Qed.

Create Rewrite HintDb st.
Hint Rewrite nsAt_upd_nodes nsAt_upd_nodesByNodeIP nsAt_upd_nodesByEgressIP nsAt_upd_nextNode
  nsAt_upd_nextNs nsAt_upd_namespacesByVNID nsAt_upd_namespacesByEgressIP
  nodeAt_upd_nss nodeAt_upd_nodesByNodeIP nodeAt_upd_nodesByEgressIP nodeAt_upd_nextNode
  nodeAt_upd_nextNs nodeAt_upd_namespacesByVNID nodeAt_upd_namespacesByEgressIP
  nodeAt_upd_nodes_eq nsAt_upd_nss_eq : st.

(* ------------------------------------------------------------------ *)
(** ** What [maybeAddEgressIP] and [deleteEgressIP] leave alone *)

Lemma wframe_refl s : wframe s s.
Proof. repeat split; auto. Qed.

Lemma wframe_trans s1 s2 s3 : wframe s1 s2 -> wframe s2 s3 -> wframe s1 s3.
Proof.
  intros (A1 & B1 & C1 & D1 & G1 & H1) (A2 & B2 & C2 & D2 & G2 & H2).
  repeat split; try congruence.
  - rewrite (proj1 (G2 id)); apply G1.
  - rewrite (proj1 (proj2 (G2 id))); apply G1.
  - intros Hs. apply G2, G1, Hs.
  - rewrite (proj1 (H2 id)); apply H1.
  - rewrite (proj1 (proj2 (H2 id))); apply H1.
  - intros Hs. apply H2, H1, Hs.
Qed.

Lemma wframe_nodesByEgressIP s f : wframe s (upd_nodesByEgressIP f s).
Proof. repeat split; auto. Qed.

Lemma wframe_namespacesByEgressIP s f : wframe s (upd_namespacesByEgressIP f s).
Proof. repeat split; auto. Qed.

Lemma sub_frame_wframe s s' : sub_frame s s' -> wframe s s'.
Proof. intros [H _]; exact H. Qed.

Lemma sub_frame_refl s : sub_frame s s.
Proof. split; [apply wframe_refl | auto]. Qed.

Lemma sub_frame_trans s1 s2 s3 : sub_frame s1 s2 -> sub_frame s2 s3 -> sub_frame s1 s3.
Proof.
  intros (W1 & B1 & C1) (W2 & B2 & C2).
  split; [eapply wframe_trans; eauto | split; congruence].
Qed.

Lemma sub_frame_assigned s id a :
  sub_frame s (upd_nodes (<[id := with_assignedIPs (nodeAt s id) a]>) s).
Proof.
  unfold sub_frame, wframe; split_and!; try reflexivity; intros j; split_and!;
    try reflexivity; unfold nodeAt; simpl;
    destruct (decide (id = j)) as [->|Hne];
    rewrite ?lookup_insert_eq, ?lookup_insert_ne by done; auto.
Qed.

Lemma sub_frame_assignment s id ip n :
  sub_frame s (upd_nss (<[id := with_assignment (nsAt s id) ip n]>) s).
Proof.
  unfold sub_frame, wframe; split_and!; try reflexivity; intros j; split_and!;
    try reflexivity; unfold nsAt; simpl;
    destruct (decide (id = j)) as [->|Hne];
    rewrite ?lookup_insert_eq, ?lookup_insert_ne by done; auto.
Qed.

Ltac frame_solve :=
  repeat match goal with
  | |- sub_frame ?s ?s => apply sub_frame_refl
  | |- sub_frame _ (upd_nss (<[_ := with_assignment (nsAt ?s1 _) _ _]>) ?s1) =>
      apply (sub_frame_trans _ s1); [|apply sub_frame_assignment]
  | |- sub_frame _ (upd_nodes (<[_ := with_assignedIPs (nodeAt ?s1 _) _]>) ?s1) =>
      apply (sub_frame_trans _ s1); [|apply sub_frame_assigned]
  end.

Lemma maybeAddEgressIP_frame c ip s :
  wp (maybeAddEgressIP c ip) (fun _ s' _ => sub_frame s s') s.
Proof. unfold maybeAddEgressIP. wp_run; frame_solve. Qed.

Lemma deleteEgressIP_frame c ip s :
  wp (deleteEgressIP c ip) (fun _ s' _ => sub_frame s s') s.
Proof. unfold deleteEgressIP. wp_run; frame_solve. Qed.

Lemma maybeAddEgressIP_wframe c ip s0 s :
  wframe s0 s -> wp (maybeAddEgressIP c ip) (fun _ s' _ => wframe s0 s') s.
Proof.
  intros H. eapply wp_mono; [|apply maybeAddEgressIP_frame].
  intros ? s' ? Hf. eapply wframe_trans; [exact H | apply sub_frame_wframe, Hf].
Qed.

Lemma deleteEgressIP_wframe c ip s0 s :
  wframe s0 s -> wp (deleteEgressIP c ip) (fun _ s' _ => wframe s0 s') s.
Proof.
  intros H. eapply wp_mono; [|apply deleteEgressIP_frame].
  intros ? s' ? Hf. eapply wframe_trans; [exact H | apply sub_frame_wframe, Hf].
Qed.

Lemma wp_elim {A} (m : M A) Q s : wp m Q s -> Q (m s).1.1 (m s).1.2 (m s).2.
Proof. unfold wp. destruct (m s) as [[a s'] es]. auto. Qed.

(** A loop with an invariant of the state alone. *)
Lemma wp_forM_inv (P : St -> Prop) (body : string -> M unit) l
    (Q : unit -> St -> list ev -> Prop) s :
  (forall x s, P s -> wp (body x) (fun _ s' _ => P s') s) ->
  P s -> (forall s' es, P s' -> Q tt s' es) -> wp (forM_ l body) Q s.
Proof.
  intros Hb HP HQ.
  eapply wp_mono; [|apply (wp_forM_ (fun _ s _ => P s) body) with (es := []); [|exact HP]].
  - intros [] s' es' H. apply HQ, H.
  - intros x rest s1 es H. eapply wp_mono; [|apply Hb, H]. auto.
Qed.

Lemma nodeAt_Some s id nd : nodes s !! id = Some nd -> nodeAt s id = nd.
Proof. unfold nodeAt. intros ->. reflexivity. Qed.

Lemma nsAt_Some s id ns : nss s !! id = Some ns -> nsAt s id = ns.
Proof. unfold nsAt. intros ->. reflexivity. Qed.

Lemma updateNodeEgress_post c n ips s :
  wp (updateNodeEgress c n ips) (fun _ s1 _ =>
    match ips with
    | [] => nodesByNodeIP s1 !! n = None
    | _ => exists id nd, nodesByNodeIP s1 !! n = Some id /\ nodes s1 !! id = Some nd /\
                         NodeEgress.requestedIPs nd = list_to_set ips
    end) s.
Proof.
  unfold updateNodeEgress. wp_run; try assumption.
  all: match goal with |- wp (forM_ _ _) _ ?s1 =>
    apply (wp_forM_inv (wframe s1));
    [ intros ?x ?s ?HP; wp_run;
      [ exact HP
      | eapply wp_mono; [|eapply maybeAddEgressIP_wframe];
        [ intros ? ? ? H; exact H
        | eapply wframe_trans; [exact HP | apply wframe_nodesByEgressIP]]]
    | apply wframe_refl
    | intros ?s ?es ?HP; cbv beta;
      apply (wp_forM_inv (wframe s1));
      [ intros ?x ?s ?HP'; wp_run;
        [ eapply wp_mono; [|eapply deleteEgressIP_wframe; exact HP'];
          intros ? ? ? H; wp_run; eapply wframe_trans; [exact H | apply wframe_nodesByEgressIP]
        | exact HP' ]
      | exact HP
      | intros ?s ?es ?HP'; cbv beta ] ]
  end.
  all: match goal with
  | HP' : wframe (upd_nodes (<[?id := _]>) _) _ |- _ =>
      destruct HP' as (HA & _ & _ & _ & HG & _);
      destruct (HG id) as (_ & Hreq & Hsome)
  end.
  - rewrite HA. simpl. apply lookup_delete_None. now left.
  - destruct Hsome as [nd Hnd]; [simpl; rewrite lookup_insert_eq; eauto|].
    exists n0, nd. split_and!.
    + rewrite HA. exact Heqo.
    + exact Hnd.
    + rewrite (nodeAt_Some _ _ _ Hnd) in Hreq. rewrite Hreq.
      unfold nodeAt. simpl. now rewrite lookup_insert_eq.
  - destruct Hsome as [nd Hnd]; [simpl; rewrite lookup_insert_eq; eauto|].
    exists (nextNode s), nd. split_and!.
    + rewrite HA. simpl. now rewrite lookup_insert_eq.
    + exact Hnd.
    + rewrite (nodeAt_Some _ _ _ Hnd) in Hreq. rewrite Hreq.
      unfold nodeAt. simpl. now rewrite lookup_insert_eq.
Qed.

Lemma wp_eq {A} (m : M A) s r : wp m (fun a s' es => (a, s', es) = r) s -> m s = r.
Proof. unfold wp. destruct (m s) as [[a s'] es]. auto. Qed.

Lemma upd_nodes_same s id nd : nodes s !! id = Some nd -> upd_nodes (<[id := nd]>) s = s.
Proof. intros H. unfold upd_nodes. rewrite insert_id by exact H. destruct s; reflexivity. Qed.

Lemma upd_nss_same s id ns : nss s !! id = Some ns -> upd_nss (<[id := ns]>) s = s.
Proof. intros H. unfold upd_nss. rewrite insert_id by exact H. destruct s; reflexivity. Qed.

Lemma with_requestedIPs_same nd : with_requestedIPs nd (NodeEgress.requestedIPs nd) = nd.
Proof. destruct nd; reflexivity. Qed.

Lemma with_requestedIP_same ns : with_requestedIP ns (NamespaceEgress.requestedIP ns) = ns.
Proof. destruct ns; reflexivity. Qed.

(** Once [updateNodeEgress n ips] has run, running it again changes nothing
    and emits nothing. *)
Lemma updateNodeEgress_settled c n ips s :
  match ips with
  | [] => nodesByNodeIP s !! n = None
  | _ => exists id nd, nodesByNodeIP s !! n = Some id /\ nodes s !! id = Some nd /\
                       NodeEgress.requestedIPs nd = list_to_set ips
  end -> updateNodeEgress c n ips s = (tt, s, []).
Proof.
  intros H. apply wp_eq. unfold updateNodeEgress.
  destruct ips as [|ip ips'].
  - wp_run; try congruence. reflexivity.
  - destruct H as (id & nd & Hid & Hnd & Hreq).
    wp_run; try congruence.
    injection Hid as <-.
    rewrite (nodeAt_Some _ _ _ Hnd), Hreq, difference_diag_L, elements_empty.
    cbn [forM_]. wp_run. rewrite <- Hreq, with_requestedIPs_same, (upd_nodes_same _ _ _ Hnd).
    reflexivity.
Qed.

Ltac wp_wframe_call :=
  match goal with
  | |- wp (maybeAddEgressIP ?c ?ip) _ ?s1 =>
      eapply wp_mono; [|apply (maybeAddEgressIP_wframe c ip s1 s1 (wframe_refl s1))];
      let H := fresh "Hwf" in intros ? ? ? H; cbv beta in H |- *
  | |- wp (deleteEgressIP ?c ?ip) _ ?s1 =>
      eapply wp_mono; [|apply (deleteEgressIP_wframe c ip s1 s1 (wframe_refl s1))];
      let H := fresh "Hwf" in intros ? ? ? H; cbv beta in H |- *
  end.

Ltac wframe_unpack :=
  repeat match goal with
  | H : wframe _ _ |- _ =>
      let A := fresh "HwA" in let B := fresh "HwB" in let C := fresh "HwC" in
      let D := fresh "HwD" in let G := fresh "HwG" in let K := fresh "HwK" in
      destruct H as (A & B & C & D & G & K)
  end.

Arguments String.eqb : simpl never.

Ltac st_rw :=
  repeat progress (simpl; autorewrite with st;
    repeat match goal with
    | H : namespacesByVNID ?a = _ |- context [namespacesByVNID ?a] => rewrite H
    | H : namespacesByEgressIP ?a = _ |- context [namespacesByEgressIP ?a] => rewrite H
    | H : nodesByNodeIP ?a = _ |- context [nodesByNodeIP ?a] => rewrite H
    | H : nodesByEgressIP ?a = _ |- context [nodesByEgressIP ?a] => rewrite H
    | H : nextNode ?a = _ |- context [nextNode ?a] => rewrite H
    | H : nextNs ?a = _ |- context [nextNs ?a] => rewrite H
    | H : forall id, NamespaceEgress.vnid (nsAt ?a id) = _ /\ _
      |- context [NamespaceEgress.requestedIP (nsAt ?a ?j)] => rewrite (proj1 (proj2 (H j)))
    | H : forall id, NamespaceEgress.vnid (nsAt ?a id) = _ /\ _
      |- context [NamespaceEgress.vnid (nsAt ?a ?j)] => rewrite (proj1 (H j))
    | H : forall id, NodeEgress.nodeIP (nodeAt ?a id) = _ /\ _
      |- context [NodeEgress.requestedIPs (nodeAt ?a ?j)] => rewrite (proj1 (proj2 (H j)))
    | H : forall id, NodeEgress.nodeIP (nodeAt ?a id) = _ /\ _
      |- context [NodeEgress.nodeIP (nodeAt ?a ?j)] => rewrite (proj1 (H j))
    end).

Lemma updateNamespaceEgress_post c v ip s :
  wp (updateNamespaceEgress c v ip) (fun _ s1 _ => exists nsid,
     namespacesByVNID s1 !! v = Some nsid /\
     (NamespaceEgress.requestedIP (nsAt s1 nsid) = ip \/
      is_Some (namespacesByEgressIP s1 !! ip))) s.
Proof.
  unfold updateNamespaceEgress. repeat (wp_run; try wp_wframe_call).
  all: wframe_unpack.
  all: match goal with |- exists _ : nat, _ =>
    let t := (split; st_rw;
      [ first [assumption | apply lookup_insert_eq]
      | first [ left; match goal with H : String.eqb _ _ = true |- _ =>
                  apply String.eqb_eq in H; revert H; st_rw; intros H; exact H end
              | right; eexists; eassumption
              | left; reflexivity ] ]) in
    first [ exists n; solve [t] | exists (nextNs s); solve [t] ] end.
Qed.

Lemma updateNamespaceEgress_settled c v ip s nsid :
  namespacesByVNID s !! v = Some nsid ->
  NamespaceEgress.requestedIP (nsAt s nsid) = ip \/ is_Some (namespacesByEgressIP s !! ip) ->
  wp (updateNamespaceEgress c v ip)
     (fun _ s' es => s' = s /\ Forall (fun e => is_call e = false) es) s.
Proof.
  intros Hv Hr. unfold updateNamespaceEgress. wp_run; try congruence.
  all: try (split; [reflexivity | repeat constructor]).
  all: exfalso; injection Hv as ->;
       destruct Hr as [Hr | [? Hr]]; [apply String.eqb_neq in Heqb; congruence | congruence].
Qed.

(** C4: re-delivering the same node event, or the same namespace event, is
    a no-op: the second [updateNodeEgress n ips] leaves the state as the
    first left it and emits nothing; the second
    [updateNamespaceEgress vnid ip] leaves the state as the first left it and
    makes no call (at most it logs the conflict again). *)
Theorem redelivery_is_noop (c : watcherCfg) (n : string) (ips : list string)
    (v : Z) (ip : string) (s : St) :
  (let s1 := (updateNodeEgress c n ips s).1.2 in
   updateNodeEgress c n ips s1 = (tt, s1, [])) /\
  (let s1 := (updateNamespaceEgress c v ip s).1.2 in
   (updateNamespaceEgress c v ip s1).1.2 = s1 /\
   Forall (fun e => is_call e = false) (updateNamespaceEgress c v ip s1).2).
Proof.
  cbv zeta. split.
  - apply updateNodeEgress_settled, (wp_elim _ _ _ (updateNodeEgress_post c n ips s)).
  - destruct (wp_elim _ _ _ (updateNamespaceEgress_post c v ip s)) as (nsid & Hv & Hr).
    apply (wp_elim _ _ _ (updateNamespaceEgress_settled c v ip _ nsid Hv Hr)).
Qed.

Lemma elements_one_new (x : string) : elements ((({[x]} ∪ ∅) ∖ ∅ : gset string)) = [x].
Proof.
  replace ((({[x]} ∪ ∅) ∖ ∅ : gset string)) with ({[x]} : gset string)
    by (apply leibniz_equiv; set_solver).
  apply elements_singleton.
Qed.

Lemma elements_none_old (x : string) : elements ((∅ : gset string) ∖ ({[x]} ∪ ∅)) = [].
Proof.
  replace ((∅ : gset string) ∖ ({[x]} ∪ ∅)) with (∅ : gset string)
    by (apply leibniz_equiv; set_solver).
  apply elements_empty.
Qed.

Ltac wp_eval :=
  repeat (st_rw; rewrite ?lookup_insert_eq;
          repeat match goal with H : ?a !! ?k = _ |- context [?a !! ?k] => rewrite H end;
          wp_step).

Ltac bool_facts :=
  repeat match goal with
  | H : bool_decide _ = true |- _ => apply bool_decide_eq_true in H
  | H : bool_decide _ = false |- _ => apply bool_decide_eq_false in H
  | H : negb ?b || ?b' = true, E : ?b = _ |- _ => rewrite E in H; simpl in H
  | H : negb ?b || ?b' = false, E : ?b = _ |- _ => rewrite E in H; simpl in H
  | H : negb ?b || ?b' = _, E : ?b' = _ |- _ => rewrite E in H; simpl in H
  end.

Ltac eqb_rw :=
  repeat match goal with
  | H : String.eqb ?a ?b = _ |- context [String.eqb ?a ?b] => rewrite H
  | H : String.eqb ?a ?b = _ |- context [String.eqb ?b ?a] => rewrite (String.eqb_sym b a), H
  | H : assignEgressIP ?c ?x ?m initSt = _ |- context [assignEgressIP ?c ?x ?m initSt] => rewrite H; simpl
  | H : ?o = Some _ |- context [match ?o with _ => _ end] => rewrite H
  | H : ?o = None |- context [match ?o with _ => _ end] => rewrite H
  end.

Lemma c5_node_first c s n x v :
  nodesByNodeIP s !! n = None -> nodesByEgressIP s !! x = None ->
  namespacesByVNID s !! v = None -> namespacesByEgressIP s !! x = None ->
  egressOf (updateNamespaceEgress c v x (updateNodeEgress c n [x] s).1.2).1.2 v =
  Some (if String.eqb x "" then (""%string, ""%string) else (x, servedBy c v n x)).
Proof.
  intros H1 H2 H3 H4.
  refine (wp_elim _ (fun _ s1 _ => egressOf (updateNamespaceEgress c v x s1).1.2 v = _) _ _).
  unfold updateNodeEgress. wp_run; try congruence.
  st_rw. rewrite elements_one_new, elements_none_old. cbn [forM_].
  unfold maybeAddEgressIP. wp_eval.
  match goal with |- egressOf (updateNamespaceEgress c v x ?s1).1.2 v = _ =>
    refine (wp_elim _ (fun _ s2 _ => egressOf s2 v = _) s1 _) end.
  unfold updateNamespaceEgress, maybeAddEgressIP. wp_eval.
  all: bool_facts; try (exfalso; first [set_solver | congruence]).
  all: unfold egressOf; st_rw; rewrite ?lookup_insert_eq; st_rw; unfold servedBy; eqb_rw.
  all: reflexivity.
Qed.

Lemma c5_namespace_first c s n x v :
  nodesByNodeIP s !! n = None -> nodesByEgressIP s !! x = None ->
  namespacesByVNID s !! v = None -> namespacesByEgressIP s !! x = None ->
  egressOf (updateNodeEgress c n [x] (updateNamespaceEgress c v x s).1.2).1.2 v =
  Some (if String.eqb x "" then (""%string, ""%string) else (x, servedBy c v n x)).
Proof.
  intros H1 H2 H3 H4.
  refine (wp_elim _ (fun _ s1 _ => egressOf (updateNodeEgress c n [x] s1).1.2 v = _) _ _).
  unfold updateNamespaceEgress, maybeAddEgressIP. wp_eval.
  all: match goal with |- egressOf (updateNodeEgress _ _ _ ?s1).1.2 _ = _ =>
    refine (wp_elim _ (fun _ s2 _ => egressOf s2 v = _) s1 _) end.
  all: unfold updateNodeEgress; wp_eval.
  all: rewrite elements_one_new, elements_none_old; cbn [forM_]; unfold maybeAddEgressIP; wp_eval.
  all: bool_facts; try (exfalso; first [set_solver | congruence]).
  all: unfold egressOf; st_rw; rewrite ?lookup_insert_eq; st_rw; unfold servedBy; eqb_rw.
  all: try reflexivity.
  all: match goal with H : negb (String.eqb ?a ?a) || negb (String.eqb "" ?m) = false |- _ =>
         rewrite String.eqb_refl in H; simpl in H;
         apply negb_false_iff, String.eqb_eq in H; subst m; reflexivity end.
Qed.

(** C5 (corrected): from a state where neither the node [n], nor the
    namespace [v], nor the IP [x] is registered, handling
    [updateNodeEgress n [x]] and [updateNamespaceEgress v x] in either order
    leaves namespace [v] with the same [(assignedIP, nodeIP)].  For
    [x <> ""] that pair is [(x, n)], except when [n] is this node and binding
    [x] locally fails: then it is [(x, "")]. *)
Theorem egress_order_independent (c : watcherCfg) (s : St) (n x : string) (v : Z)
    (Hn : nodesByNodeIP s !! n = None) (Hx : nodesByEgressIP s !! x = None)
    (Hv : namespacesByVNID s !! v = None) (Hxv : namespacesByEgressIP s !! x = None) :
  egressOf (updateNamespaceEgress c v x (updateNodeEgress c n [x] s).1.2).1.2 v =
  egressOf (updateNodeEgress c n [x] (updateNamespaceEgress c v x s).1.2).1.2 v /\
  egressOf (updateNodeEgress c n [x] (updateNamespaceEgress c v x s).1.2).1.2 v =
  Some (if String.eqb x "" then (""%string, ""%string) else (x, servedBy c v n x)).
Proof.
  rewrite (c5_node_first c s n x v Hn Hx Hv Hxv), (c5_namespace_first c s n x v Hn Hx Hv Hxv).
  split; reflexivity.
Qed.

Lemma egress_order_independent_witness :
  egressOf (updateNamespaceEgress cfgLocal 7 "10.0.0.5"
              (updateNodeEgress cfgLocal "10.0.0.2" ["10.0.0.5"] initSt).1.2).1.2 7 =
  Some ("10.0.0.5", "10.0.0.2")%string.
Proof.
  destruct (egress_order_independent cfgLocal initSt "10.0.0.2" "10.0.0.5" 7
              eq_refl eq_refl eq_refl eq_refl) as [E1 E2].
  rewrite E1, E2. vm_compute. reflexivity.
Defined.

(** C5, counterexample: this node ([10.0.0.1]) claims [10.0.0.5] but the
    address is outside its network, so binding it fails; in both orders the
    namespace ends with [(10.0.0.5, "")], not [(10.0.0.5, 10.0.0.1)]. *)
Lemma egress_order_local_failure :
  egressOf (updateNamespaceEgress cfgOutOfRange 7 "10.0.0.5"
              (updateNodeEgress cfgOutOfRange "10.0.0.1" ["10.0.0.5"] initSt).1.2).1.2 7 =
  Some ("10.0.0.5", "")%string /\
  egressOf (updateNodeEgress cfgOutOfRange "10.0.0.1" ["10.0.0.5"]
              (updateNamespaceEgress cfgOutOfRange 7 "10.0.0.5" initSt).1.2).1.2 7 =
  Some ("10.0.0.5", "")%string.
Proof. split; vm_compute; reflexivity. Qed.

Lemma getMarkForVNID_valid_witness :
  getMarkForVNID 0 (masqueradeBitOf (Some 24%Z)) <>
  getMarkForVNID 16777215 (masqueradeBitOf (Some 24%Z)).
Proof.
  intros E.
  pose proof (proj2 (proj2 (proj2 (getMarkForVNID_valid (Some 24%Z) 0 16777215
                                     ltac:(lia) ltac:(lia))))) E as H.
  discriminate H.
Defined.

Lemma self_ip_never_assigned_or_released_witness :
  assignEgressIP cfgLocal "10.0.0.1" "0x00000007" initSt = (Some ESelfIP, initSt, []) /\
  releaseEgressIP cfgLocal "10.0.0.1" "0x00000007" initSt = (None, initSt, []).
Proof.
  apply (self_ip_never_assigned_or_released cfgLocal "10.0.0.1" "0x00000007" initSt).
  reflexivity.
Defined.

(** C8, counterexample: asked to release the node's own IP,
    [releaseEgressIP] reports success, not the self-IP error. *)
Lemma release_self_ip_returns_nil :
  (releaseEgressIP cfgLocal "10.0.0.1" "0x00000007" initSt).1.1 = None.
Proof. reflexivity. Qed.

(* ------------------------------------------------------------------ *)
(** ** The global invariant of the watcher *)

Open Scope string_scope.

Ltac node_cases :=
  repeat match goal with |- context [nodeAt (upd_nodes (<[?k := _]>) _) ?j] =>
    first [rewrite nodeAt_upd_nodes_eq
          | destruct (decide (k = j)) as [<-|?];
            [rewrite nodeAt_upd_nodes_eq | rewrite nodeAt_upd_nodes_ne by assumption]] end.
Ltac ns_cases :=
  repeat match goal with |- context [nsAt (upd_nss (<[?k := _]>) _) ?j] =>
    first [rewrite nsAt_upd_nss_eq
          | destruct (decide (k = j)) as [<-|?];
            [rewrite nsAt_upd_nss_eq | rewrite nsAt_upd_nss_ne by assumption]] end.

Lemma maybeAdd_spec c ip s :
  wp (maybeAddEgressIP c ip) (fun _ s' _ =>
    sub_frame s s' /\
    (forall nid, NodeEgress.assignedIPs (nodeAt s nid) ⊆ NodeEgress.assignedIPs (nodeAt s' nid)) /\
    (forall id, nsAt s' id = nsAt s id \/
       (namespacesByEgressIP s !! ip = Some id /\ NamespaceEgress.assignedIP (nsAt s' id) = ip /\
        (NamespaceEgress.nodeIP (nsAt s' id) = "" \/
         exists nid, nodesByEgressIP s !! ip = Some nid /\
           NodeEgress.nodeIP (nodeAt s nid) = NamespaceEgress.nodeIP (nsAt s' id) /\
           ip ∈ NodeEgress.assignedIPs (nodeAt s' nid))))) s.
Proof.
  unfold maybeAddEgressIP. wp_run.
  all: split; [frame_solve|].
  all: split; [intros nid; st_rw; node_cases; simpl; set_solver|].
  all: intros id; st_rw; ns_cases; first [left; reflexivity | right].
  all: simpl; split; [reflexivity|split; [reflexivity|]].
  all: first [left; reflexivity | right; eexists; split; [reflexivity|]].
  all: node_cases; simpl; split; [reflexivity | set_solver].
Qed.

Lemma delete_spec c ip s :
  wp (deleteEgressIP c ip) (fun _ s' _ =>
    sub_frame s s' /\
    (forall nid, NodeEgress.assignedIPs (nodeAt s nid) ∖ {[ip]} ⊆ NodeEgress.assignedIPs (nodeAt s' nid)) /\
    (forall id, nsAt s' id = nsAt s id \/
       (NamespaceEgress.nodeIP (nsAt s' id) = "" /\ NamespaceEgress.assignedIP (nsAt s' id) = "")) /\
    (forall id nid, namespacesByEgressIP s !! ip = Some id -> nodesByEgressIP s !! ip = Some nid ->
       NamespaceEgress.assignedIP (nsAt s id) = ip -> NamespaceEgress.nodeIP (nsAt s' id) = "")) s.
Proof.
  unfold deleteEgressIP. wp_run.
  all: split; [frame_solve|].
  all: split; [intros nid; st_rw; node_cases; simpl; set_solver|].
  all: split; [intros id; st_rw; ns_cases; first [left; reflexivity | right; split; reflexivity]|].
  all: intros id nid Hns Hnd Has; try discriminate; injection Hns as <-;
       st_rw; ns_cases; simpl; try reflexivity.
  all: exfalso; match goal with H : (NamespaceEgress.assignedIP _ =? _) = false |- _ => revert H end;
       st_rw; rewrite Has, String.eqb_refl; discriminate.
Qed.

Lemma InvA_maybeAdd c X ip s :
  InvA X s -> wp (maybeAddEgressIP c ip) (fun _ s' _ => InvA X s') s.
Proof.
  intros (HJ & (HK1 & HK2) & HS).
  eapply wp_mono; [|apply maybeAdd_spec].
  intros _ s' _ (((HA & HB & HC & HD & HG & HK) & HE & HN) & Hsub & Hns).
  unfold InvA, idsOK; split_and!.
  - intros ip' nid Hl. rewrite HE in Hl. rewrite (proj1 (proj2 (HG nid))). auto.
  - intros ip' nid Hl. rewrite HB. rewrite HE in Hl. eauto.
  - intros n nid Hl. rewrite HB, (proj1 (HG nid)). rewrite HA in Hl. auto.
  - intros id Hnip. rewrite HN, HE.
    destruct (Hns id) as [Heq | (Hns' & Has & [Hnil | (nid & Hnd & Hnip' & Hin)])].
    + rewrite Heq in Hnip |- *.
      destruct (HS id Hnip) as (Hb & nid & Hnd & Hnip' & Hin).
      split; [exact Hb|]. exists nid. split_and!; [exact Hnd | | apply Hsub, Hin].
      rewrite (proj1 (HG nid)). exact Hnip'.
    + contradiction.
    + rewrite Has. split; [exact Hns'|]. exists nid. split_and!; [exact Hnd | | exact Hin].
      rewrite (proj1 (HG nid)). exact Hnip'.
Qed.

Lemma InvA_delete c X ip s :
  InvA X s -> wp (deleteEgressIP c ip) (fun _ s' _ => InvA X s' /\
    forall j, NamespaceEgress.nodeIP (nsAt s' j) <> "" ->
      NamespaceEgress.assignedIP (nsAt s' j) <> ip) s.
Proof.
  intros (HJ & (HK1 & HK2) & HS).
  eapply wp_mono; [|apply delete_spec].
  intros _ s' _ (((HA & HB & HC & HD & HG & HK) & HE & HN) & Hsub & Hns & Hclr).
  assert (Hkeep : forall j, NamespaceEgress.nodeIP (nsAt s' j) <> "" ->
    nsAt s' j = nsAt s j /\ NamespaceEgress.assignedIP (nsAt s j) <> ip).
  { intros j Hnip. destruct (Hns j) as [Heq | [Hnil _]]; [|contradiction].
    split; [exact Heq|]. intros Ha.
    rewrite Heq in Hnip. destruct (HS j Hnip) as (Hb & nid & Hnd & _).
    rewrite Ha in Hb, Hnd. apply Hnip. rewrite <- Heq. exact (Hclr j nid Hb Hnd Ha). }
  unfold InvA, idsOK; split_and!.
  - intros ip' nid Hl. rewrite HE in Hl. rewrite (proj1 (proj2 (HG nid))). auto.
  - intros ip' nid Hl. rewrite HB. rewrite HE in Hl. eauto.
  - intros n nid Hl. rewrite HB, (proj1 (HG nid)). rewrite HA in Hl. auto.
  - intros j Hnip. destruct (Hkeep j Hnip) as [Heq Hne].
    rewrite HN, HE, Heq. rewrite Heq in Hnip.
    destruct (HS j Hnip) as (Hb & nid & Hnd & Hnip' & Hin).
    split; [exact Hb|]. exists nid. split_and!; [exact Hnd | | apply Hsub; set_solver].
    rewrite (proj1 (HG nid)). exact Hnip'.
  - intros j Hnip. destruct (Hkeep j Hnip) as [Heq Hne]. rewrite Heq. exact Hne.
Qed.

(** Changes to namespace objects that keep the routing of every routed
    namespace. *)
Lemma InvA_ns_change X s s' :
  InvA X s ->
  nodes s' = nodes s -> nextNode s' = nextNode s -> nodesByNodeIP s' = nodesByNodeIP s ->
  nodesByEgressIP s' = nodesByEgressIP s -> namespacesByEgressIP s' = namespacesByEgressIP s ->
  (forall j, NamespaceEgress.nodeIP (nsAt s' j) <> "" ->
     NamespaceEgress.assignedIP (nsAt s' j) = NamespaceEgress.assignedIP (nsAt s j) /\
     NamespaceEgress.nodeIP (nsAt s' j) = NamespaceEgress.nodeIP (nsAt s j)) ->
  InvA X s'.
Proof.
  intros (HJ & (HK1 & HK2) & HS) Hn Hnn Hbn Hbe Hbns Hj.
  assert (Hat : nodeAt s' = nodeAt s) by (unfold nodeAt; rewrite Hn; reflexivity).
  unfold InvA, idsOK, claimsOK, servedOK in *; rewrite Hat, Hnn, Hbn, Hbe, Hbns.
  split_and!; auto.
  intros j Hnip. destruct (Hj j Hnip) as [Ha Hnp]. rewrite Ha, Hnp. rewrite Hnp in Hnip. auto.
Qed.

Lemma InvA_nsByEgressIP_delete X s ip :
  InvA X s ->
  (forall j, NamespaceEgress.nodeIP (nsAt s j) <> "" -> NamespaceEgress.assignedIP (nsAt s j) <> ip) ->
  InvA X (upd_namespacesByEgressIP (delete ip) s).
Proof.
  intros (HJ & HK & HS) Hne. split_and!; [exact HJ | exact HK |].
  intros j Hnip. revert Hnip; st_rw; intros Hnip.
  rewrite lookup_delete_ne by (apply not_eq_sym, Hne, Hnip). auto.
Qed.

Lemma InvA_nsByEgressIP_insert X s ip k :
  InvA X s -> namespacesByEgressIP s !! ip = None ->
  InvA X (upd_namespacesByEgressIP (<[ip := k]>) s).
Proof.
  intros (HJ & HK & HS) Hnone. split_and!; [exact HJ | exact HK |].
  intros j Hnip. revert Hnip; st_rw; intros Hnip.
  destruct (HS j Hnip) as [Hb Hrest].
  rewrite lookup_insert_ne by congruence. auto.
Qed.

Ltac ns_change_solve :=
  intros ?j ?Hj; revert Hj; st_rw; ns_cases; simpl;
  first [ intros Hj; exfalso; apply Hj; reflexivity | intros _; split; reflexivity ].

Ltac inv_peel :=
  repeat first
  [ assumption
  | match goal with
    | |- InvA _ (upd_namespacesByEgressIP (<[_ := _]>) _) =>
        apply InvA_nsByEgressIP_insert; [|st_rw; first [apply lookup_delete_eq | assumption]]
    | |- InvA _ (upd_nss _ ?s0) =>
        apply (InvA_ns_change _ s0); [| reflexivity .. | ns_change_solve]
    | |- InvA _ (upd_namespacesByVNID _ ?s0) =>
        apply (InvA_ns_change _ s0); [| reflexivity .. | ns_change_solve]
    | |- InvA _ (upd_nextNs _ ?s0) =>
        apply (InvA_ns_change _ s0); [| reflexivity .. | ns_change_solve]
    end ].

Lemma InvA_updateNamespaceEgress c X v ip s :
  InvA X s -> wp (updateNamespaceEgress c v ip) (fun _ s' _ => InvA X s') s.
Proof.
  intros H. unfold updateNamespaceEgress.
  apply wp_bind_intro, wp_getS_intro. apply wp_bind_intro.
  apply (wp_mono _ (fun _ s1 _ => InvA X s1)).
  { intros nsid s1 _ H1. wp_run.
    all: try assumption.
    - eapply wp_mono; [|apply InvA_delete; exact H1]. intros _ s2 _ [H2 Hp]. wp_run.
      eapply wp_mono; [|apply InvA_maybeAdd]; [intros ? ? ? Hf; exact Hf|].
      inv_peel. apply InvA_nsByEgressIP_delete; assumption.
    - eapply wp_mono; [|apply InvA_maybeAdd]; [intros ? ? ? Hf; exact Hf|].
      inv_peel. }
  destruct (namespacesByVNID s !! v); wp_run; inv_peel.
Qed.

Lemma InvA_deleteNamespaceEgress c X v s :
  InvA X s -> wp (deleteNamespaceEgress c v) (fun _ s' _ => InvA X s') s.
Proof.
  intros H. unfold deleteNamespaceEgress. wp_run; try assumption.
  - eapply wp_mono; [|apply (InvA_delete c X); inv_peel]. intros _ s2 _ [H2 Hp]. wp_run.
    inv_peel. apply InvA_nsByEgressIP_delete; assumption.
Qed.

Lemma InvA_weaken X X' s :
  InvA X s ->
  (forall ip nid, nodesByEgressIP s !! ip = Some nid -> X ip nid ->
     ip ∈ NodeEgress.requestedIPs (nodeAt s nid) \/ X' ip nid) ->
  InvA X' s.
Proof.
  intros (HJ & HK & HS) Hw. split_and!; [|exact HK|exact HS].
  intros ip nid Hl. destruct (HJ ip nid Hl) as [H|H]; auto.
Qed.

Lemma InvA_newNode X s n :
  InvA X s ->
  InvA X (upd_nodesByNodeIP (<[n := nextNode s]>)
            (upd_nextNode S (upd_nodes (<[nextNode s := NodeEgress.mk n ∅ ∅]>) s))).
Proof.
  intros (HJ & (HK1 & HK2) & HS).
  assert (Hold : forall nid, nid < nextNode s ->
    nodeAt (upd_nodesByNodeIP (<[n := nextNode s]>)
              (upd_nextNode S (upd_nodes (<[nextNode s := NodeEgress.mk n ∅ ∅]>) s))) nid
    = nodeAt s nid).
  { intros nid Hlt. st_rw. apply nodeAt_upd_nodes_ne. lia. }
  unfold InvA, idsOK; split_and!.
  - intros ip nid Hl. simpl in Hl. rewrite Hold by eauto. auto.
  - intros ip nid Hl. simpl in Hl |- *. specialize (HK1 ip nid Hl). lia.
  - intros n' nid Hl. simpl in Hl |- *.
    destruct (decide (n = n')) as [<-|Hne].
    + rewrite lookup_insert_eq in Hl. injection Hl as <-. split; [lia|].
      st_rw. reflexivity.
    + rewrite lookup_insert_ne in Hl by exact Hne.
      destruct (HK2 n' nid Hl) as [Hlt Hip]. split; [lia|]. rewrite Hold by exact Hlt. exact Hip.
  - intros j Hnip. revert Hnip; st_rw; intros Hnip.
    destruct (HS j Hnip) as (Hb & nid & Hnd & Hnip' & Hin).
    split; [exact Hb|]. exists nid.
    rewrite nodeAt_upd_nodes_ne by (pose proof (HK1 _ _ Hnd); lia). auto.
Qed.

Lemma InvA_nodesByNodeIP_delete X s n :
  InvA X s -> InvA X (upd_nodesByNodeIP (delete n) s).
Proof.
  intros (HJ & (HK1 & HK2) & HS). unfold InvA, idsOK; split_and!; try assumption.
  intros n' nid Hl. simpl in Hl |- *. st_rw.
  apply lookup_delete_Some in Hl. apply HK2, Hl.
Qed.

Lemma InvA_storeRequested s id r :
  InvA (fun _ _ => False) s -> id < nextNode s ->
  InvA (fun ip nid => nid = id /\ In ip (elements (NodeEgress.requestedIPs (nodeAt s id) ∖ r)))
       (upd_nodes (<[id := with_requestedIPs (nodeAt s id) r]>) s).
Proof.
  intros (HJ & (HK1 & HK2) & HS) Hlt.
  assert (Hsame : forall nid,
    NodeEgress.nodeIP (nodeAt (upd_nodes (<[id := with_requestedIPs (nodeAt s id) r]>) s) nid)
      = NodeEgress.nodeIP (nodeAt s nid) /\
    NodeEgress.assignedIPs (nodeAt (upd_nodes (<[id := with_requestedIPs (nodeAt s id) r]>) s) nid)
      = NodeEgress.assignedIPs (nodeAt s nid)).
  { intros nid. node_cases; split; reflexivity. }
  unfold InvA, idsOK; split_and!.
  - intros ip nid Hl. simpl in Hl. destruct (HJ ip nid Hl) as [Hin|[]].
    destruct (decide (id = nid)) as [<-|Hne].
    + rewrite nodeAt_upd_nodes_eq. simpl.
      destruct (decide (ip ∈ r)) as [Hr|Hr]; [left; exact Hr|right].
      split; [reflexivity|]. apply list_elem_of_In, elem_of_elements. set_solver.
    + rewrite nodeAt_upd_nodes_ne by exact Hne. left; exact Hin.
  - intros ip nid Hl. simpl in Hl |- *. eauto.
  - intros n nid Hl. simpl in Hl |- *. rewrite (proj1 (Hsame nid)). auto.
  - intros j Hnip. revert Hnip; st_rw; intros Hnip.
    destruct (HS j Hnip) as (Hb & nid & Hnd & Hnip' & Hin).
    split; [exact Hb|]. exists nid. rewrite (proj1 (Hsame nid)), (proj2 (Hsame nid)). auto.
Qed.

Lemma InvA_nodesByEgressIP_insert X s ip id :
  InvA X s -> nodesByEgressIP s !! ip = None -> id < nextNode s ->
  ip ∈ NodeEgress.requestedIPs (nodeAt s id) ->
  InvA X (upd_nodesByEgressIP (<[ip := id]>) s).
Proof.
  intros (HJ & (HK1 & HK2) & HS) Hnone Hlt Hreq. unfold InvA, idsOK; split_and!.
  - intros ip' nid Hl. simpl in Hl. st_rw.
    destruct (decide (ip = ip')) as [<-|Hne].
    + rewrite lookup_insert_eq in Hl. injection Hl as <-. left; exact Hreq.
    + rewrite lookup_insert_ne in Hl by exact Hne. auto.
  - intros ip' nid Hl. simpl in Hl |- *.
    destruct (decide (ip = ip')) as [<-|Hne].
    + rewrite lookup_insert_eq in Hl. congruence.
    + rewrite lookup_insert_ne in Hl by exact Hne. eauto.
  - intros n nid Hl. simpl in Hl |- *. st_rw. auto.
  - intros j Hnip. revert Hnip; st_rw; intros Hnip.
    destruct (HS j Hnip) as (Hb & nid & Hnd & Hnip' & Hin).
    split; [exact Hb|]. exists nid. simpl.
    rewrite lookup_insert_ne by congruence. auto.
Qed.

Lemma InvA_nodesByEgressIP_delete X X' s ip :
  InvA X s ->
  (forall ip' nid, ip' <> ip -> X ip' nid -> X' ip' nid) ->
  (forall j, NamespaceEgress.nodeIP (nsAt s j) <> "" -> NamespaceEgress.assignedIP (nsAt s j) <> ip) ->
  InvA X' (upd_nodesByEgressIP (delete ip) s).
Proof.
  intros (HJ & (HK1 & HK2) & HS) HX Hne. unfold InvA, idsOK; split_and!.
  - intros ip' nid Hl. simpl in Hl. st_rw.
    apply lookup_delete_Some in Hl as [Hip Hl].
    destruct (HJ ip' nid Hl) as [H|H]; [left; exact H | right; apply HX; auto].
  - intros ip' nid Hl. simpl in Hl |- *. apply lookup_delete_Some in Hl as [_ Hl]. eauto.
  - intros n nid Hl. simpl in Hl |- *. st_rw. auto.
  - intros j Hnip. revert Hnip; st_rw; intros Hnip.
    destruct (HS j Hnip) as (Hb & nid & Hnd & Hnip' & Hin).
    split; [exact Hb|]. exists nid. simpl.
    rewrite lookup_delete_ne by (apply not_eq_sym, Hne, Hnip). auto.
Qed.

Lemma wp_conj {A} (m : M A) P Q s :
  wp m P s -> wp m Q s -> wp m (fun a s' es => P a s' es /\ Q a s' es) s.
Proof. unfold wp. destruct (m s) as [[a s'] es]. auto. Qed.

(** A loop with an invariant of the items left and the state. *)
Lemma wp_forM_rest (P : list string -> St -> Prop) (body : string -> M unit) l
    (Q : unit -> St -> list ev -> Prop) s :
  (forall x rest s, P (x :: rest) s -> wp (body x) (fun _ s' _ => P rest s') s) ->
  P l s -> (forall s' es, P [] s' -> Q tt s' es) -> wp (forM_ l body) Q s.
Proof.
  intros Hb HP HQ.
  eapply wp_mono; [|apply (wp_forM_ (fun R s _ => P R s) body) with (es := []); [|exact HP]].
  - intros [] s' es' H. apply HQ, H.
  - intros x rest s1 es H. eapply wp_mono; [|apply Hb, H]. auto.
Qed.

Lemma InvA_updateNodeEgress c n ips s :
  InvA (fun _ _ => False) s ->
  wp (updateNodeEgress c n ips) (fun _ s' _ => InvA (fun _ _ => False) s') s.
Proof.
  intros H. unfold updateNodeEgress. wp_run; try exact H.
  all: match goal with |- wp (forM_ _ _) _ (upd_nodes (<[?id := _]>) ?s1) =>
         assert (HI1 : InvA (fun _ _ => False) s1)
           by first [assumption | apply InvA_newNode; assumption
                    | apply InvA_nodesByNodeIP_delete; assumption];
         assert (Hlt1 : id < nextNode s1)
           by first [simpl; lia | exact (proj1 (proj2 (proj1 (proj2 H)) _ _ Heqo))]
       end.
  all: match goal with
       |- wp (forM_ (elements (?r ∖ ?old)) _) _ (upd_nodes (<[?id := _]>) ?s1) =>
         apply (wp_forM_rest (fun R s =>
                  InvA (pendingX id (elements (old ∖ r))) s /\ id < nextNode s /\
                  NodeEgress.requestedIPs (nodeAt s id) = r /\ (forall y, In y R -> y ∈ r)));
         [ intros ?x ?rest ?s (HI & Hlt & Hreq & Hin); cbv beta; wp_run;
           [ split_and!; auto; intros y Hy; apply Hin; right; exact Hy
           | eapply wp_mono; [|apply wp_conj; [apply InvA_maybeAdd | apply maybeAddEgressIP_frame]];
             [ intros ? ?s' ? (HI' & ((HA & HB & HC & HD & HG & HK) & HE & HN)); split_and!;
               [ exact HI' | rewrite HB; simpl; exact Hlt
               | rewrite (proj1 (proj2 (HG id))); st_rw; exact Hreq
               | intros y Hy; apply Hin; right; exact Hy ]
             | apply InvA_nodesByEgressIP_insert; [exact HI | assumption | exact Hlt |];
               rewrite Hreq; apply Hin; left; reflexivity ] ]
         | split_and!;
           [ apply InvA_storeRequested; assumption
           | simpl; exact Hlt1
           | rewrite nodeAt_upd_nodes_eq; reflexivity
           | intros y Hy; apply list_elem_of_In, elem_of_elements in Hy; set_solver ]
         | intros ?s ?es (HI & Hlt & _ & _); cbv beta ]
       end.
  all: match goal with
       | HI : InvA (pendingX ?id _) _ |- wp (forM_ ?L _) _ _ =>
         apply (wp_forM_rest (fun R s => InvA (pendingX id R) s /\ id < nextNode s)) with (l := L);
         [ intros ?x ?rest ?s2 (HI2 & Hlt2); wp_run; bool_facts;
           [ eapply wp_mono; [|apply wp_conj; [apply (InvA_delete c _ x _ HI2)
                                              | apply deleteEgressIP_frame]];
             intros _ ?s3 _ ((HI3 & Hp) & ((HA & HB & HC & HD & HG & HK) & HE & HN)); wp_run;
             split;
             [ apply (InvA_nodesByEgressIP_delete (pendingX id (x :: rest)));
               [ exact HI3 | intros ?ip' ?nid ?Hne (-> & [?Heq | ?Hin]); [congruence | split; auto]
               | exact Hp ]
             | simpl; rewrite HB; exact Hlt2 ]
           | split; [|exact Hlt2]; apply (InvA_weaken _ _ _ HI2);
             intros ?ip ?nid ?Hl (-> & [<- | ?Hin]); [contradiction | right; split; auto] ]
         | split; assumption
         | intros ?s' _ (HI' & _); apply (InvA_weaken _ _ _ HI'); intros ? ? _ (_ & []) ]
       end.
Qed.

Lemma InvA_init : InvA (fun _ _ => False) initSt.
Proof.
  unfold InvA, claimsOK, idsOK, servedOK; split_and!.
  - intros ip nid Hl. discriminate.
  - intros ip nid Hl. discriminate.
  - intros n nid Hl. discriminate.
  - intros id Hn. exfalso. apply Hn. reflexivity.
Qed.

Lemma InvA_handle c e s :
  InvA (fun _ _ => False) s -> InvA (fun _ _ => False) (handle c e s).1.2.
Proof.
  intros H. apply (wp_elim _ (fun _ s' _ => InvA (fun _ _ => False) s')).
  destruct e as [d h ips | d v ips]; simpl.
  - apply InvA_updateNodeEgress, H.
  - unfold handleNetNamespace. destruct d, ips as [|ip rest];
      try (apply InvA_deleteNamespaceEgress, H).
    wp_run; apply InvA_updateNamespaceEgress, H.
Qed.

Lemma reachable_InvA c s : reachable c s -> InvA (fun _ _ => False) s.
Proof.
  induction 1 as [|s e _ IH]; [apply InvA_init | apply InvA_handle, IH].
Qed.

Lemma runEvents_reachable c es s : reachable c s -> reachable c (runEvents c es s).1.
Proof.
  revert s. induction es as [|e rest IH]; intros s Hs; simpl; [exact Hs|].
  destruct (handle c e s) as [[u s1] out1] eqn:Hh.
  specialize (IH s1). destruct (runEvents c rest s1) as [s2 out2]. simpl.
  apply IH. replace s1 with (handle c e s).1.2 by (rewrite Hh; reflexivity).
  apply reachable_step, Hs.
Qed.

(** C1: in every reachable state, a namespace routed through a node
    (non-empty [nodeIP]) has its [assignedIP] claimed in [nodesByEgressIP]
    by a node with that [nodeIP], which requests the IP and has it in its
    [assignedIPs]. The [assignedIP] alone is set without any claimant: a
    first request for an IP no node and no namespace claims records
    [(ip, "")] and installs only the flow rule with an empty node IP. *)
Theorem namespace_route_needs_claim (c : watcherCfg) :
  (forall s v a n, reachable c s -> egressOf s v = Some (a, n) -> n <> "" ->
     exists nid, nodesByEgressIP s !! a = Some nid /\
       NodeEgress.nodeIP (nodeAt s nid) = n /\
       a ∈ NodeEgress.requestedIPs (nodeAt s nid) /\
       a ∈ NodeEgress.assignedIPs (nodeAt s nid)) /\
  (forall s v ip, namespacesByVNID s !! v = None -> ip <> "" ->
     nodesByEgressIP s !! ip = None -> namespacesByEgressIP s !! ip = None ->
     egressOf (updateNamespaceEgress c v ip s).1.2 v = Some (ip, "") /\
     (updateNamespaceEgress c v ip s).2 =
       [EvCall (CSetNamespaceEgressViaEgressIP v "" (getMarkForVNID v (masqueradeBit c)))]).
Proof.
  split.
  - intros s v a n Hr He Hn.
    destruct (reachable_InvA c s Hr) as (HJ & _ & HS).
    unfold egressOf in He. destruct (namespacesByVNID s !! v) as [id|]; [|discriminate].
    injection He as Ha Hnip. subst a n.
    destruct (HS id Hn) as (_ & nid & Hnd & Hnip & Hin).
    exists nid. split_and!; auto.
    destruct (HJ _ _ Hnd) as [Hreq|[]]. exact Hreq.
  - intros s v ip Hv Hip Hnd Hns.
    apply (wp_elim _ (fun _ s' es => egressOf s' v = Some (ip, "") /\ es = _)).
    unfold updateNamespaceEgress. wp_eval.
    + apply String.eqb_eq in Heqb. congruence.
    + unfold maybeAddEgressIP. wp_eval.
      all: unfold egressOf; st_rw; rewrite ?lookup_insert_eq; st_rw; try (split; reflexivity).
      rewrite Heqb in Heqb0. discriminate.
Qed.

Ltac touches_pose x :=
  match goal with
  | Hp : assignEgressIP ?c ?ip ?m initSt = (_, _, ?l) |- Forall _ ?l =>
      let Ht := fresh "Ht" in
      pose proof (assignEgressIP_touches c ip m x) as Ht; rewrite Hp in Ht; simpl in Ht
  | Hp : releaseEgressIP ?c ?ip ?m initSt = (_, _, ?l) |- Forall _ ?l =>
      let Ht := fresh "Ht" in
      pose proof (releaseEgressIP_touches c ip m x) as Ht; rewrite Hp in Ht; simpl in Ht
  end.

Ltac touches_close Hne :=
  eapply Forall_impl; [eassumption|];
  let ev0 := fresh "ev" in let He := fresh "He" in
  intros ev0 He; cbv beta in He;
  match goal with |- touches ?y _ = false =>
    destruct (touches y ev0) eqn:?;
    [exfalso; apply Hne, He; first [reflexivity | assumption] | reflexivity] end.

Lemma maybeAdd_touches c ip x s :
  x <> ip -> wp (maybeAddEgressIP c ip) (fun _ _ es => Forall (fun e => touches x e = false) es) s.
Proof.
  intros Hne. unfold maybeAddEgressIP. wp_run.
  all: repeat rewrite Forall_app; repeat match goal with |- _ /\ _ => split end.
  all: try (repeat constructor; fail).
  all: touches_pose x; touches_close Hne.
Qed.

Lemma delete_touches c ip x s :
  x <> ip -> wp (deleteEgressIP c ip) (fun _ _ es => Forall (fun e => touches x e = false) es) s.
Proof.
  intros Hne. unfold deleteEgressIP. wp_run.
  all: repeat rewrite Forall_app; repeat match goal with |- _ /\ _ => split end.
  all: try (repeat constructor; fail).
  all: touches_pose x; touches_close Hne.
Qed.

(** C1, witness: the routed namespace of [scnLocalServed], and a first
    request for an unclaimed IP. *)
Lemma namespace_route_needs_claim_witness :
  (exists nid, nodesByEgressIP (runEvents cfgLocal scnLocalServed initSt).1 !! "10.0.0.5" = Some nid /\
     NodeEgress.nodeIP (nodeAt (runEvents cfgLocal scnLocalServed initSt).1 nid) = "10.0.0.1" /\
     "10.0.0.5" ∈ NodeEgress.requestedIPs (nodeAt (runEvents cfgLocal scnLocalServed initSt).1 nid) /\
     "10.0.0.5" ∈ NodeEgress.assignedIPs (nodeAt (runEvents cfgLocal scnLocalServed initSt).1 nid)) /\
  egressOf (updateNamespaceEgress cfgLocal 7 "10.0.0.9" initSt).1.2 7 = Some ("10.0.0.9", "").
Proof.
  destruct (namespace_route_needs_claim cfgLocal) as [H1 H2]. split.
  - apply (H1 _ 7%Z "10.0.0.5" "10.0.0.1" (runEvents_reachable _ _ _ (reachable_init _))).
    + vm_compute. reflexivity.
    + discriminate.
  - refine (proj1 (H2 initSt 7%Z "10.0.0.9" _ _ _ _)); [reflexivity | discriminate | reflexivity | reflexivity].
Defined.

(** C1, counterexample: after namespace 7 asks for [10.0.0.9], which no
    node claims, its [assignedIP] is [10.0.0.9]. *)
Lemma unclaimed_request_sets_assignedIP :
  let s := (runEvents cfgLocal [NetNamespaceEvent false 7 ["10.0.0.9"]] initSt).1 in
  egressOf s 7 = Some ("10.0.0.9", "") /\ nodesByEgressIP s !! "10.0.0.9" = None.
Proof. cbv zeta. split; vm_compute; reflexivity. Qed.

(* ------------------------------------------------------------------ *)
(** ** A second claimant of an egress IP *)

Lemma loops_kept c id (r old : gset string) s x a nB nA (Q : list ev -> St -> list ev -> Prop) :
  nodesByEgressIP s !! x = Some a -> NodeEgress.nodeIP (nodeAt s id) = nB ->
  NodeEgress.nodeIP (nodeAt s a) = nA -> id <> a ->
  (forall e1 s2 e2, nodesByEgressIP s2 !! x = Some a -> Forall (fun e => touches x e = false) (e1 ++ e2) ->
     (x ∈ r ∖ old -> In (EvLog (LMultipleNodes x nB nA)) (e1 ++ e2)) -> Q e1 s2 e2) ->
  wp (forM_ (elements (r ∖ old)) (fun ip =>
        s ← getS;
        match nodesByEgressIP s !! ip with
        | Some oldId =>
            emit (EvLog (LMultipleNodes ip (NodeEgress.nodeIP (nodeAt s id))
                                           (NodeEgress.nodeIP (nodeAt s oldId))))
        | None =>
            modifyS (upd_nodesByEgressIP (<[ip := id]>)) ;;
            maybeAddEgressIP c ip
        end))
     (fun _ s1 e1 => wp (forM_ (elements (old ∖ r)) (fun ip =>
        s ← getS;
        if bool_decide (nodesByEgressIP s !! ip = Some id) then
          deleteEgressIP c ip ;;
          modifyS (upd_nodesByEgressIP (delete ip))
        else mret tt)) (fun _ s2 e2 => Q e1 s2 e2) s1) s.
Proof.
  intros Hx Hid Ha Hne HQ.
  eapply wp_mono; [|apply (wp_forM_ (fun R s es =>
      nodesByEgressIP s !! x = Some a /\ Forall (fun e => touches x e = false) es /\
      NodeEgress.nodeIP (nodeAt s id) = nB /\ NodeEgress.nodeIP (nodeAt s a) = nA /\
      (x ∈ r ∖ old -> In x R \/ In (EvLog (LMultipleNodes x nB nA)) es))) with (es := [])].
  - intros [] s1 e1 (Hx1 & Hf1 & _ & _ & Hl1). simpl in Hf1, Hl1.
    eapply wp_mono; [|apply (wp_forM_ (fun R s es =>
      nodesByEgressIP s !! x = Some a /\ Forall (fun e => touches x e = false) es /\
      (x ∈ r ∖ old -> In (EvLog (LMultipleNodes x nB nA)) es))) with (es := e1)].
    + intros [] s2 e2 (Hx2 & Hf2 & Hl2). apply HQ; assumption.
    + intros x0 rest s0 es (Hx0 & Hf0 & Hl0). wp_run.
      * apply bool_decide_eq_true in Heqb.
        assert (Hx0ne : x <> x0) by (intros <-; congruence).
        eapply wp_mono; [|apply wp_conj; [apply (delete_touches c x0 x s0 Hx0ne) | apply deleteEgressIP_frame]].
        intros _ s3 e0 (Ht & ((HA & HB & HC & HD & HG & HK) & HE & HN)). wp_run.
        split_and!.
        -- st_rw. rewrite lookup_delete_ne by congruence. rewrite ?HE. exact Hx0.
        -- rewrite !Forall_app. split_and!; auto.
        -- intros H. apply in_or_app. left. auto.
      * split_and!; [exact Hx0 | rewrite !app_nil_r; exact Hf0 | intros H; rewrite !app_nil_r; auto].
    + split_and!; [exact Hx1 | exact Hf1 | intros H; destruct (Hl1 H) as [[]|?]; assumption].
  - intros x0 rest s0 es (Hx0 & Hf0 & Hid0 & Ha0 & Hl0). wp_run.
    + split_and!; try assumption.
      * rewrite !Forall_app. split_and!; auto.
      * intros H. destruct (Hl0 H) as [[<-|Hr]|Hl].
        -- right. rewrite Hx0 in Heqo. injection Heqo as <-. rewrite Hid0, Ha0.
           apply in_or_app. right. left. reflexivity.
        -- left. exact Hr.
        -- right. apply in_or_app. left. exact Hl.
    + assert (Hx0ne : x <> x0) by (intros <-; congruence).
      eapply wp_mono; [|apply wp_conj; [apply (maybeAdd_touches c x0 x _ Hx0ne) | apply maybeAddEgressIP_frame]].
      intros _ s3 e0 (Ht & ((HA & HB & HC & HD & HG & HK) & HE & HN)).
      split_and!.
      * rewrite HE. st_rw. rewrite lookup_insert_ne by congruence. exact Hx0.
      * rewrite !Forall_app. split_and!; auto.
      * rewrite (proj1 (HG id)). st_rw. exact Hid0.
      * rewrite (proj1 (HG a)). st_rw. exact Ha0.
      * intros H. destruct (Hl0 H) as [[<-|Hr]|Hl]; [congruence | left; exact Hr |].
        right. apply in_or_app. left. exact Hl.
  - simpl. split_and!; try assumption; [constructor|].
    intros H. left. apply list_elem_of_In, elem_of_elements, H.
Qed.

Lemma claim_kept c nB ips s x a :
  idsOK s -> nodesByEgressIP s !! x = Some a -> NodeEgress.nodeIP (nodeAt s a) <> nB ->
  wp (updateNodeEgress c nB ips) (fun _ s' es =>
    nodesByEgressIP s' !! x = Some a /\ Forall (fun e => touches x e = false) es /\
    (In x ips -> (forall id, nodesByNodeIP s !! nB = Some id -> x ∉ NodeEgress.requestedIPs (nodeAt s id)) ->
     In (EvLog (LMultipleNodes x nB (NodeEgress.nodeIP (nodeAt s a)))) es)) s.
Proof.
  intros [Hlt Hnn] Hx Hn. unfold updateNodeEgress. wp_run.
  all: try (split_and!; [exact Hx | constructor | intros []]).
  all: match goal with |- wp _ _ (upd_nodes (<[?id := _]>) _) =>
         assert (Hida : id <> a)
           by (intros ?; subst; first [ apply Hn, (proj2 (Hnn _ _ Heqo)) | pose proof (Hlt _ _ Hx); lia ]);
         eapply (loops_kept c id _ _ _ x a nB (NodeEgress.nodeIP (nodeAt s a))); [ | | | exact Hida | ]
       end.
  all: try (st_rw; exact Hx).
  all: try (rewrite nodeAt_upd_nodes_ne by exact Hida; st_rw;
            first [reflexivity | rewrite nodeAt_upd_nodes_ne by (pose proof (Hlt _ _ Hx); lia); reflexivity]).
  all: try (rewrite nodeAt_upd_nodes_eq; simpl; st_rw;
            first [exact (proj2 (Hnn _ _ Heqo)) | rewrite nodeAt_upd_nodes_eq; reflexivity]).
  all: try (intros e1 s2 e2 H1 H2 H3; rewrite ?app_nil_l; split_and!; [exact H1 | exact H2 |];
            intros Hin Hno; apply H3; clear H3; apply elem_of_difference; split;
            [ apply elem_of_list_to_set, list_elem_of_In, Hin
            | first [ apply Hno; reflexivity
                    | st_rw; rewrite nodeAt_upd_nodes_eq; simpl; set_solver ] ]).
  - rewrite nodeAt_upd_nodes_eq, nodeAt_upd_nodesByNodeIP, nodeAt_upd_nextNode, nodeAt_upd_nodes_eq.
    reflexivity.
  - intros e1 s2 e2 H1 H2 H3; rewrite ?app_nil_l; split_and!; [exact H1 | exact H2 |].
    intros Hin _; apply H3; clear H3; apply elem_of_difference; split;
      [ apply elem_of_list_to_set, list_elem_of_In, Hin |].
    rewrite nodeAt_upd_nodesByNodeIP, nodeAt_upd_nextNode, nodeAt_upd_nodes_eq. set_solver.
Qed.

(** C3: from a reachable state where node [a] claims [x], an
    [updateNodeEgress] for a node with another IP [nB] keeps [a] as the
    claimant of [x] in [nodesByEgressIP], makes no address or NAT call for
    [x], and, when [nB] newly requests [x], logs the conflict. *)
Theorem first_claimant_kept (c : watcherCfg) (s : St) (nB : string) (ips : list string) (x : string) (a : nat)
    (Hr : reachable c s) (Hx : nodesByEgressIP s !! x = Some a)
    (Hn : NodeEgress.nodeIP (nodeAt s a) <> nB) :
  let r := updateNodeEgress c nB ips s in
  nodesByEgressIP r.1.2 !! x = Some a /\
  Forall (fun e => touches x e = false) r.2 /\
  (In x ips -> (forall id, nodesByNodeIP s !! nB = Some id -> x ∉ NodeEgress.requestedIPs (nodeAt s id)) ->
   In (EvLog (LMultipleNodes x nB (NodeEgress.nodeIP (nodeAt s a)))) r.2).
Proof.
  cbv zeta.
  pose proof (claim_kept c nB ips s x a) as H.
  unfold wp in H. destruct (updateNodeEgress c nB ips s) as [[u s'] es]. simpl.
  apply H; [exact (proj1 (proj2 (reachable_InvA c s Hr))) | exact Hx | exact Hn].
Qed.

(** C3, witness: node [10.0.0.3] asks for [10.0.0.5], held by node
    [10.0.0.2]. *)
Lemma first_claimant_kept_witness :
  let r := updateNodeEgress cfgLocal "10.0.0.3" ["10.0.0.5"] stClaimed in
  nodesByEgressIP r.1.2 !! "10.0.0.5" = Some 0 /\
  In (EvLog (LMultipleNodes "10.0.0.5" "10.0.0.3" "10.0.0.2")) r.2.
Proof.
  cbv zeta.
  destruct (first_claimant_kept cfgLocal stClaimed "10.0.0.3" ["10.0.0.5"] "10.0.0.5" 0
              (runEvents_reachable _ _ _ (reachable_init _)) ltac:(vm_compute; reflexivity)
              ltac:(vm_compute; discriminate)) as (H1 & _ & H3).
  split; [exact H1|].
  replace "10.0.0.2" with (NodeEgress.nodeIP (nodeAt stClaimed 0)) by (vm_compute; reflexivity).
  refine (H3 _ _).
  - left. reflexivity.
  - intros id Hid. vm_compute in Hid. discriminate Hid.
Defined.

(* ------------------------------------------------------------------ *)
(** ** Scenarios *)

(** C2: namespace 7 holds [10.0.0.5], served by this node, and asks for
    the unclaimed [10.0.0.6]. [updateNamespaceEgress] passes the new IP to
    [deleteEgressIP], so the old one is not torn down: no call releases
    [10.0.0.5], it stays registered for namespace 7 in
    [namespacesByEgressIP], and it stays in the node's [assignedIPs]. *)
Theorem namespace_switch_keeps_old_ip :
  let s := (runEvents cfgLocal scnLocalServed initSt).1 in
  let r := updateNamespaceEgress cfgLocal 7 "10.0.0.6" s in
  egressOf s 7 = Some ("10.0.0.5", "10.0.0.1")%string /\
  namespacesByEgressIP s !! "10.0.0.6"%string = None /\
  r.2 = [EvCall (CSetNamespaceEgressViaEgressIP 7 ""
                   (getMarkForVNID 7 (masqueradeBit cfgLocal)))] /\
  egressOf r.1.2 7 = Some ("10.0.0.6", "")%string /\
  namespacesByEgressIP r.1.2 !! "10.0.0.5"%string = namespacesByVNID r.1.2 !! 7%Z /\
  namespacesByEgressIP r.1.2 !! "10.0.0.5"%string <> None /\
  bool_decide ("10.0.0.5"%string ∈ NodeEgress.assignedIPs (nodeAt r.1.2 0)) = true.
Proof.
  cbv zeta; repeat split; vm_compute; try reflexivity; discriminate.
Qed.

(** C7: node [10.0.0.2] withdraws [10.0.0.5] while namespace 7 still wants
    it. The namespace is cleared and set to dropped, but [10.0.0.5] stays
    in the node's [assignedIPs]; when the node claims it again, the
    namespace is routed through node [""] instead of [10.0.0.2]. *)
Theorem node_withdraw_keeps_assigned :
  let s := (runEvents cfgLocal scnWithdraw initSt).1 in
  (runEvents cfgLocal scnWithdraw initSt).2 =
    [EvCall (CSetNamespaceEgressViaEgressIP 7 "10.0.0.2"
               (getMarkForVNID 7 (masqueradeBit cfgLocal)));
     EvCall (CSetNamespaceEgressDropped 7)] /\
  egressOf s 7 = Some ("", "")%string /\
  nodesByNodeIP s !! "10.0.0.2"%string = Some 0 /\
  elements (NodeEgress.requestedIPs (nodeAt s 0)) = ["10.0.0.6"]%string /\
  elements (NodeEgress.assignedIPs (nodeAt s 0)) = ["10.0.0.5"]%string /\
  egressOf (runEvents cfgLocal [HostSubnetEvent false "10.0.0.2" ["10.0.0.5"; "10.0.0.6"]] s).1 7
    = Some ("10.0.0.5", "")%string.
Proof.
  cbv zeta; repeat split; vm_compute; reflexivity.
Qed.

(** C10: a non-deleted NetNamespace event with no EgressIPs runs
    [deleteNamespaceEgress], exactly like a deletion. When the namespace's
    [assignedIP] is already empty (its node withdrew the IP),
    [deleteNamespaceEgress] keeps the [namespacesByEgressIP] entry, and
    another namespace asking for that IP is refused. *)
Theorem namespace_clear_leaves_stale_claim :
  (forall c v ips, handle c (NetNamespaceEvent false v []) = handle c (NetNamespaceEvent true v ips)) /\
  let s := (runEvents cfgLocal scnClear initSt).1 in
  namespacesByVNID s !! 7%Z = None /\
  namespacesByEgressIP s !! "10.0.0.5"%string = Some 0 /\
  (runEvents cfgLocal [NetNamespaceEvent false 8 ["10.0.0.5"]] s).2
    = [EvLog (LMultipleNetNamespaces "10.0.0.5" 8 7)] /\
  egressOf (runEvents cfgLocal [NetNamespaceEvent false 8 ["10.0.0.5"]] s).1 8
    = Some ("", "")%string.
Proof.
  split; [reflexivity|].
  cbv zeta; repeat split; vm_compute; reflexivity.
Qed.

(* ------------------------------------------------------------------ *)
(** ** Master: a node re-registered with a new IP *)

(** C9: on an [Added] event for a node whose persisted subnet, as returned
    by [GetSubnet], has a different IP, the allocator is not used (its free
    pool is unchanged and [GetNetwork] is not called); when [DeleteSubnet]
    and [CreateSubnet] both succeed, the node's record is replaced by one
    with the event's IP and the old [SubnetIP], and no other record
    changes; when [CreateSubnet] fails after the delete, the node is left
    with no record; when [DeleteSubnet] fails, the old record is kept and
    no record changes. *)
Theorem master_readd_keeps_subnet (env : Master.registryEnv) (st : Master.mstate)
    (name ip : string) (sub : Master.subnet)
    (Hsub : Master.subnets st !! name = Some sub)
    (Hget : Master.getOK env name = true)
    (Hip : Master.NodeIP sub <> ip) :
  let r := Master.watchNodesAdded env name ip st in
  Master.freeNets r.1 = Master.freeNets st /\
  ~ In Master.MGetNetwork r.2 /\
  (Master.deleteOK env name = true ->
   Master.createOK env name (Master.mkSubnet ip (Master.SubnetIP sub)) = true ->
   Master.subnets r.1 = <[name := Master.mkSubnet ip (Master.SubnetIP sub)]> (Master.subnets st)) /\
  (Master.deleteOK env name = true ->
   Master.createOK env name (Master.mkSubnet ip (Master.SubnetIP sub)) = false ->
   Master.subnets r.1 = delete name (Master.subnets st) /\ Master.subnets r.1 !! name = None) /\
  (Master.deleteOK env name = false -> Master.subnets r.1 = Master.subnets st).
Proof.
  cbv zeta.
  unfold Master.watchNodesAdded, Master.GetSubnet.
  rewrite Hget, Hsub.
  apply String.eqb_neq in Hip; rewrite Hip.
  unfold Master.DeleteSubnet.
  destruct (Master.deleteOK env name) eqn:Hd.
  - unfold Master.CreateSubnet; simpl.
    destruct (Master.createOK env name (Master.mkSubnet ip (Master.SubnetIP sub))) eqn:Hc;
      simpl; (split; [reflexivity|split]);
      try (intros Hin; simpl in Hin; intuition discriminate);
      split_and!; intros; try discriminate.
    all: first [apply insert_delete_eq | split; [reflexivity | apply lookup_delete_eq]].
  - simpl; (split; [reflexivity|split]);
      [intros Hin; simpl in Hin; intuition discriminate|].
    split_and!; intros; first [discriminate | reflexivity].
Qed.

Lemma master_readd_keeps_subnet_witness :
  Master.freeNets (Master.watchNodesAdded Master.envOK "n1" "10.1.0.2" Master.mst1).1
    = ["10.128.2.0/23"%string] /\
  Master.subnets (Master.watchNodesAdded Master.envOK "n1" "10.1.0.2" Master.mst1).1
    = {[ "n1"%string := Master.mkSubnet "10.1.0.2" "10.128.0.0/23" ]}.
Proof.
  destruct (master_readd_keeps_subnet Master.envOK Master.mst1 "n1" "10.1.0.2"
              (Master.mkSubnet "10.1.0.1" "10.128.0.0/23")
              eq_refl eq_refl ltac:(discriminate)) as [H1 [_ [H3 _]]].
  split; [exact H1|].
  rewrite (H3 eq_refl eq_refl). vm_compute. reflexivity.
Defined.

(** C9, counterexample: when [CreateSubnet] fails after the delete, node
    [n1] is left with no subnet record at all. *)
Lemma master_readd_create_failure :
  Master.subnets (Master.watchNodesAdded Master.envCreateFails "n1" "10.1.0.2" Master.mst1).1
    !! "n1"%string = None.
Proof. vm_compute. reflexivity. Qed.

(* ------------------------------------------------------------------ *)
(** ** More properties of the egress watcher *)

Lemma updateNodeEgress_requested c n ips s id :
  nodesByNodeIP s !! n = Some id ->
  wp (updateNodeEgress c n ips)
     (fun _ s1 _ => NodeEgress.requestedIPs (nodeAt s1 id) = list_to_set ips) s.
Proof.
  intros Hid. unfold updateNodeEgress. wp_run; try congruence.
  all: injection Hid as <-.
  all: match goal with |- wp (forM_ _ _) _ ?s1 =>
    apply (wp_forM_inv (wframe s1));
    [ intros ?x ?s ?HP; wp_run;
      [ exact HP
      | eapply wp_mono; [|eapply maybeAddEgressIP_wframe];
        [ intros ? ? ? H; exact H
        | eapply wframe_trans; [exact HP | apply wframe_nodesByEgressIP]]]
    | apply wframe_refl
    | intros ?s ?es ?HP; cbv beta;
      apply (wp_forM_inv (wframe s1));
      [ intros ?x ?s ?HP'; wp_run;
        [ eapply wp_mono; [|eapply deleteEgressIP_wframe; exact HP'];
          intros ? ? ? H; wp_run; eapply wframe_trans; [exact H | apply wframe_nodesByEgressIP]
        | exact HP' ]
      | exact HP
      | intros ?s ?es ?HP'; cbv beta ] ]
  end.
  all: match goal with
  | HP' : wframe (upd_nodes (<[?id := _]>) _) _ |- _ =>
      destruct HP' as (_ & _ & _ & _ & HG & _);
      destruct (HG id) as (_ & Hreq & _)
  end.
  all: rewrite Hreq; unfold nodeAt; simpl; rewrite lookup_insert_eq; reflexivity.
Qed.

(** X1: in a reachable state, a HostSubnet event that deletes a registered
    node unregisters it from [nodesByNodeIP] and leaves no egress IP
    claimed by it in [nodesByEgressIP]. *)
Theorem node_withdraw_drops_claims (c : watcherCfg) (s : St) (n : string) (ips : list string) (nid : nat)
  (Hs : reachable c s) (Hn : nodesByNodeIP s !! n = Some nid) :
  let s' := (handle c (HostSubnetEvent true n ips) s).1.2 in
  nodesByNodeIP s' !! n = None /\ forall ip, nodesByEgressIP s' !! ip <> Some nid.
Proof.
  intros s'.
  assert (Hr : reachable c s') by (apply reachable_step, Hs).
  destruct (reachable_InvA c s' Hr) as [Hcl _].
  pose proof (wp_elim _ _ _ (updateNodeEgress_post c n [] s)) as Hpost.
  pose proof (wp_elim _ _ _ (updateNodeEgress_requested c n [] s nid Hn)) as Hreq.
  simpl in Hpost, Hreq. split; [exact Hpost|].
  intros ip Hip. destruct (Hcl ip nid Hip) as [Hin|[]].
  change s' with (updateNodeEgress c n [] s).1.2 in Hin.
  rewrite Hreq in Hin. set_solver.
Qed.

Lemma node_withdraw_drops_claims_witness :
  nodesByNodeIP stClaimed !! "10.0.0.2" = Some 0 /\
  (let s' := (handle cfgLocal (HostSubnetEvent true "10.0.0.2" []) stClaimed).1.2 in
   nodesByNodeIP s' !! "10.0.0.2" = None /\ forall ip, nodesByEgressIP s' !! ip <> Some 0).
Proof.
  split; [vm_compute; reflexivity|].
  apply (node_withdraw_drops_claims cfgLocal stClaimed "10.0.0.2" [] 0).
  - apply runEvents_reachable, reachable_init.
  - vm_compute; reflexivity.
Defined.

(** X2: in every reachable state, an IP claimed in [nodesByEgressIP] is in
    the requested IPs of its claimant node. *)
Theorem reachable_claims_requested (c : watcherCfg) (s : St) (ip : string) (nid : nat)
  (Hs : reachable c s) (H : nodesByEgressIP s !! ip = Some nid) :
  ip ∈ NodeEgress.requestedIPs (nodeAt s nid).
Proof.
  destruct (reachable_InvA c s Hs) as [Hcl _].
  destruct (Hcl ip nid H) as [Hin|[]]. exact Hin.
Qed.

Lemma reachable_claims_requested_witness :
  nodesByEgressIP stClaimed !! "10.0.0.5" = Some 0 /\
  "10.0.0.5" ∈ NodeEgress.requestedIPs (nodeAt stClaimed 0).
Proof.
  split; [vm_compute; reflexivity|].
  apply (reachable_claims_requested cfgLocal).
  - apply runEvents_reachable, reachable_init.
  - vm_compute; reflexivity.
Defined.

(** X3: in every reachable state, [nodesByNodeIP] maps a node IP to a node
    object whose [nodeIP] is that IP. *)
Theorem reachable_nodesByNodeIP_keyed (c : watcherCfg) (s : St) (n : string) (nid : nat)
  (Hs : reachable c s) (H : nodesByNodeIP s !! n = Some nid) :
  NodeEgress.nodeIP (nodeAt s nid) = n.
Proof.
  destruct (reachable_InvA c s Hs) as [_ [[_ Hids] _]].
  exact (proj2 (Hids n nid H)).
Qed.

Lemma reachable_nodesByNodeIP_keyed_witness :
  nodesByNodeIP stClaimed !! "10.0.0.2" = Some 0 /\
  NodeEgress.nodeIP (nodeAt stClaimed 0) = "10.0.0.2".
Proof.
  split; [vm_compute; reflexivity|].
  apply (reachable_nodesByNodeIP_keyed cfgLocal).
  - apply runEvents_reachable, reachable_init.
  - vm_compute; reflexivity.
Defined.

(** X4: a known namespace asking for an egress IP another namespace holds in
    [namespacesByEgressIP] changes nothing: the watcher only logs the
    conflict, and the namespace keeps its previous assignment. *)
Theorem namespace_conflict_only_logs (c : watcherCfg) (s : St) (v : Z) (ip : string) (id other : nat)
  (Hv : namespacesByVNID s !! v = Some id)
  (Hr : NamespaceEgress.requestedIP (nsAt s id) <> ip)
  (Ho : namespacesByEgressIP s !! ip = Some other) :
  updateNamespaceEgress c v ip s =
  (tt, s, [EvLog (LMultipleNetNamespaces ip (NamespaceEgress.vnid (nsAt s id))
                                            (NamespaceEgress.vnid (nsAt s other)))]).
Proof.
  apply wp_eq. unfold updateNamespaceEgress.
  apply wp_bind_intro, wp_getS_intro. rewrite Hv.
  wp_run; try congruence.
  - apply String.eqb_eq in Heqb. congruence.
  - injection Ho as <-. reflexivity.
Qed.

Lemma namespace_conflict_only_logs_witness :
  namespacesByVNID stTwoNs !! 8%Z = Some 1 /\
  NamespaceEgress.requestedIP (nsAt stTwoNs 1) <> "10.0.0.5" /\
  namespacesByEgressIP stTwoNs !! "10.0.0.5" = Some 0 /\
  updateNamespaceEgress cfgLocal 8 "10.0.0.5" stTwoNs =
  (tt, stTwoNs, [EvLog (LMultipleNetNamespaces "10.0.0.5" (NamespaceEgress.vnid (nsAt stTwoNs 1))
                                                (NamespaceEgress.vnid (nsAt stTwoNs 0)))]).
Proof.
  assert (Hv : namespacesByVNID stTwoNs !! 8%Z = Some 1) by (vm_compute; reflexivity).
  assert (Hr : NamespaceEgress.requestedIP (nsAt stTwoNs 1) <> "10.0.0.5")
    by (intros Heq; vm_compute in Heq; discriminate Heq).
  assert (Ho : namespacesByEgressIP stTwoNs !! "10.0.0.5" = Some 0) by (vm_compute; reflexivity).
  split; [exact Hv|]. split; [exact Hr|]. split; [exact Ho|].
  exact (namespace_conflict_only_logs cfgLocal stTwoNs 8 "10.0.0.5" 1 0 Hv Hr Ho).
Defined.

(** X5: for an [int32] masquerade bit [b], the mask is [1 << b] when
    [0 <= b < 32] and 0 otherwise (a negative [b] wraps to a shift of 32 or
    more); with such a bit, the mark of a non-zero VNID is the VNID. *)
Theorem masqueradeBitOf_int32 (b : Z) (Hb : (- 2 ^ 31 <= b < 2 ^ 31)%Z) :
  masqueradeBitOf (Some b) = (if (0 <=? b) && (b <? 32) then 2 ^ b else 0)%Z /\
  ((b < 0 \/ 32 <= b)%Z -> forall v, v <> 0%Z -> getMarkValue v (masqueradeBitOf (Some b)) = v).
Proof.
  assert (Hm : masqueradeBitOf (Some b) = (if (0 <=? b) && (b <? 32) then 2 ^ b else 0)%Z).
  { unfold masqueradeBitOf.
    destruct (Z.leb_spec 0 b) as [H0|H0].
    - rewrite (Z.mod_small b) by lia.
      destruct (Z.ltb_spec b 32); simpl; [apply Z.shiftl_1_l | reflexivity].
    - replace (b mod 2 ^ 32)%Z with (b + 2 ^ 32)%Z.
      + destruct (Z.ltb_spec (b + 2 ^ 32) 32); [lia | reflexivity].
      + rewrite <- (Z.mod_small (b + 2 ^ 32) (2 ^ 32)) by lia.
        rewrite Z.add_mod, Z.mod_same, Z.add_0_r, Z.mod_mod by lia. reflexivity. }
  split; [exact Hm|].
  intros Hout v Hv. rewrite Hm.
  replace ((0 <=? b) && (b <? 32))%Z with false
    by (destruct Hout; symmetry; apply andb_false_iff;
        [left; apply Z.leb_gt | right; apply Z.ltb_ge]; lia).
  unfold getMarkValue. rewrite Z.land_0_r. simpl.
  destruct (Z.eqb_spec v 0); [contradiction | reflexivity].
Qed.

Lemma masqueradeBitOf_int32_witness :
  masqueradeBitOf (Some (-1)%Z) = 0%Z /\ getMarkValue 7 (masqueradeBitOf (Some (-1)%Z)) = 7%Z.
Proof.
  destruct (masqueradeBitOf_int32 (-1)%Z) as [H1 H2]; [lia|].
  split; [exact H1 | apply H2; lia].
Defined.

Lemma nodeSide_refl s : nodeSide s s.
Proof. repeat split. Qed.

Lemma nodeSide_sub s0 s1 s2 : nodeSide s0 s1 -> sub_frame s1 s2 -> nodeSide s0 s2.
Proof.
  intros (A & B & C) ((A' & _ & _ & _ & G & _) & B' & _).
  split_and!; [congruence | congruence |].
  intros id. rewrite (proj1 (proj2 (G id))). apply C.
Qed.

Lemma nodeSide_nss s0 s f : nodeSide s0 s -> nodeSide s0 (upd_nss f s).
Proof. intros H. exact H. Qed.
Lemma nodeSide_nextNs s0 s f : nodeSide s0 s -> nodeSide s0 (upd_nextNs f s).
Proof. intros H. exact H. Qed.
Lemma nodeSide_namespacesByVNID s0 s f : nodeSide s0 s -> nodeSide s0 (upd_namespacesByVNID f s).
Proof. intros H. exact H. Qed.
Lemma nodeSide_namespacesByEgressIP s0 s f : nodeSide s0 s -> nodeSide s0 (upd_namespacesByEgressIP f s).
Proof. intros H. exact H. Qed.

Ltac nodeSide_solve :=
  repeat match goal with
  | |- nodeSide ?s ?s => apply nodeSide_refl
  | H : nodeSide ?a ?b |- nodeSide ?a ?b => exact H
  | |- nodeSide _ (upd_nss _ _) => apply nodeSide_nss
  | |- nodeSide _ (upd_nextNs _ _) => apply nodeSide_nextNs
  | |- nodeSide _ (upd_namespacesByVNID _ _) => apply nodeSide_namespacesByVNID
  | |- nodeSide _ (upd_namespacesByEgressIP _ _) => apply nodeSide_namespacesByEgressIP
  | H : sub_frame ?s1 ?s2 |- nodeSide _ ?s2 => apply (nodeSide_sub _ s1); [|exact H]
  end.

Ltac wp_sub_call :=
  match goal with
  | |- wp (maybeAddEgressIP ?c ?ip) _ ?s1 =>
      eapply wp_mono; [|apply (maybeAddEgressIP_frame c ip s1)];
      let H := fresh "Hsf" in intros ? ? ? H; cbv beta in H |- *
  | |- wp (deleteEgressIP ?c ?ip) _ ?s1 =>
      eapply wp_mono; [|apply (deleteEgressIP_frame c ip s1)];
      let H := fresh "Hsf" in intros ? ? ? H; cbv beta in H |- *
  end.

(** X6: a NetNamespace event never changes [nodesByNodeIP],
    [nodesByEgressIP] or the requested IPs of a node. *)
Theorem namespace_event_keeps_node_claims (c : watcherCfg) (s : St) (d : bool) (v : Z) (ips : list string) :
  nodeSide s (handle c (NetNamespaceEvent d v ips) s).1.2.
Proof.
  apply (wp_elim _ (fun _ s' _ => nodeSide s s')).
  simpl. unfold handleNetNamespace.
  destruct d; [|destruct ips as [|ip rest]].
  1,2: unfold deleteNamespaceEgress; repeat (wp_run; try wp_sub_call); nodeSide_solve.
  wp_run. all: unfold updateNamespaceEgress; repeat (wp_run; try wp_sub_call).
  all: nodeSide_solve.
Qed.

Lemma nsSide_refl s : nsSide s s.
Proof. repeat split. Qed.

Lemma nsSide_sub s0 s1 s2 : nsSide s0 s1 -> sub_frame s1 s2 -> nsSide s0 s2.
Proof.
  intros (A & B & C) ((_ & _ & C' & _ & _ & K) & _ & E).
  split_and!; [congruence | congruence |].
  intros id. rewrite (proj1 (proj2 (K id))). apply C.
Qed.

Lemma nsSide_nodes s0 s f : nsSide s0 s -> nsSide s0 (upd_nodes f s).
Proof. intros H. exact H. Qed.
Lemma nsSide_nextNode s0 s f : nsSide s0 s -> nsSide s0 (upd_nextNode f s).
Proof. intros H. exact H. Qed.
Lemma nsSide_nodesByNodeIP s0 s f : nsSide s0 s -> nsSide s0 (upd_nodesByNodeIP f s).
Proof. intros H. exact H. Qed.
Lemma nsSide_nodesByEgressIP s0 s f : nsSide s0 s -> nsSide s0 (upd_nodesByEgressIP f s).
Proof. intros H. exact H. Qed.

Ltac nsSide_solve :=
  repeat match goal with
  | |- nsSide ?s ?s => apply nsSide_refl
  | H : nsSide ?a ?b |- nsSide ?a ?b => exact H
  | |- nsSide _ (upd_nodes _ _) => apply nsSide_nodes
  | |- nsSide _ (upd_nextNode _ _) => apply nsSide_nextNode
  | |- nsSide _ (upd_nodesByNodeIP _ _) => apply nsSide_nodesByNodeIP
  | |- nsSide _ (upd_nodesByEgressIP _ _) => apply nsSide_nodesByEgressIP
  | H : sub_frame ?s1 ?s2 |- nsSide _ ?s2 => apply (nsSide_sub _ s1); [|exact H]
  end.

(** X7: a HostSubnet event never changes [namespacesByVNID],
    [namespacesByEgressIP] or the requested IP of a namespace. *)
Theorem node_event_keeps_namespace_requests (c : watcherCfg) (s : St) (d : bool) (n : string) (ips : list string) :
  nsSide s (handle c (HostSubnetEvent d n ips) s).1.2.
Proof.
  apply (wp_elim _ (fun _ s' _ => nsSide s s')).
  simpl. unfold handleHostSubnet, updateNodeEgress. wp_run; try apply nsSide_refl.
  all: match goal with |- wp (forM_ _ _) _ ?s1 =>
    assert (H1 : nsSide s s1) by nsSide_solve;
    apply (wp_forM_inv (nsSide s));
    [ intros ?x ?s ?HP; repeat (wp_run; try wp_sub_call); nsSide_solve
    | exact H1
    | intros ?s ?es ?HP; cbv beta;
      apply (wp_forM_inv (nsSide s));
      [ intros ?x ?s ?HP'; repeat (wp_run; try wp_sub_call); nsSide_solve
      | exact HP
      | intros ?s ?es ?HP'; exact HP' ] ]
  end.
Qed.

(* ------------------------------------------------------------------ *)
(** ** Properties of the master's node operations *)

Import Master.

Section NodeProps.
Variable env : registryEnv.
Variable parseCIDR : string -> bool.

(** X8: with a free network at the head of the pool, [AddNode] always takes
    it out of the pool; it records it for the node, and returns no error,
    exactly when the node IP is valid and [CreateSubnet] succeeds. *)
Theorem AddNode_takes_network (name ip sn : string) (rest : list string) (st : mstate)
  (Hf : freeNets st = sn :: rest) :
  let ok := validIP ip && createOK env name (mkSubnet ip sn) in
  freeNets (AddNode env name ip st).1 = rest /\
  subnets (AddNode env name ip st).1 =
    (if ok then <[name := mkSubnet ip sn]> (subnets st) else subnets st) /\
  (AddNodeError env name ip st = None <-> ok = true).
Proof.
  intros ok. unfold ok, validIP, AddNode, AddNodeError, GetNetwork, CreateSubnet. rewrite Hf. simpl.
  destruct (String.eqb ip "" || String.eqb ip "127.0.0.1"); simpl;
    [split_and!; try reflexivity; split; discriminate|].
  destruct (createOK env name (mkSubnet ip sn)); simpl;
    split_and!; try reflexivity; split; congruence.
Qed.

Lemma AddNode_subnets_other name ip st k :
  k <> name -> subnets (AddNode env name ip st).1 !! k = subnets st !! k.
Proof.
  intros Hk. unfold AddNode, GetNetwork, CreateSubnet.
  destruct (freeNets st); simpl; [reflexivity|].
  destruct (String.eqb ip "" || String.eqb ip "127.0.0.1"); simpl; [reflexivity|].
  destruct (createOK env name _); simpl; [|reflexivity].
  apply lookup_insert_ne. congruence.
Qed.

Lemma AddNode_subnets_mono name ip st k :
  is_Some (subnets st !! k) -> is_Some (subnets (AddNode env name ip st).1 !! k).
Proof.
  intros Hk. destruct (decide (k = name)) as [->|Hne];
    [|rewrite AddNode_subnets_other by exact Hne; exact Hk].
  unfold AddNode, GetNetwork, CreateSubnet.
  destruct (freeNets st); simpl; [exact Hk|].
  destruct (String.eqb ip "" || String.eqb ip "127.0.0.1"); simpl; [exact Hk|].
  destruct (createOK env name _); simpl; [|exact Hk].
  rewrite lookup_insert_eq. eauto.
Qed.

Lemma AddNode_recorded name ip st :
  AddNodeError env name ip st = None -> is_Some (subnets (AddNode env name ip st).1 !! name).
Proof.
  unfold AddNodeError, AddNode, GetNetwork, CreateSubnet.
  destruct (freeNets st); simpl; [discriminate|].
  destruct (String.eqb ip "" || String.eqb ip "127.0.0.1"); simpl; [discriminate|].
  destruct (createOK env name _); simpl; [|discriminate].
  rewrite lookup_insert_eq. eauto.
Qed.

(** X9: [ServeExistingNodes] never changes the record of a node whose
    subnet [GetSubnet] can read. *)
Theorem ServeExistingNodes_keeps_existing (g : option (list node)) (st : mstate) (name : string) (sub : subnet)
  (Hget : getOK env name = true) (Hs : subnets st !! name = Some sub) :
  subnets (ServeExistingNodes env g st).2 !! name = Some sub.
Proof.
  destruct g as [l|]; [|exact Hs]. simpl. revert st Hs.
  induction l as [|nd rest IH]; intros st Hs; simpl; [exact Hs|].
  destruct (GetSubnet env st (Name nd)) eqn:Hg; [apply IH, Hs|].
  assert (Hne : name <> Name nd).
  { intros ->. unfold GetSubnet in Hg. rewrite Hget, Hs in Hg. discriminate. }
  assert (Hs' : subnets (AddNode env (Name nd) (IP nd) st).1 !! name = Some sub)
    by (rewrite AddNode_subnets_other by exact Hne; exact Hs).
  destruct (AddNodeError env (Name nd) (IP nd) st); simpl; [exact Hs' | apply IH, Hs'].
Qed.

Lemma serveNodes_mono l st k :
  is_Some (subnets st !! k) -> is_Some (subnets (serveNodes env l st).2 !! k).
Proof.
  revert st. induction l as [|nd rest IH]; intros st Hk; simpl; [exact Hk|].
  destruct (GetSubnet env st (Name nd)); [apply IH, Hk|].
  destruct (AddNodeError env (Name nd) (IP nd) st); simpl;
    [|apply IH]; apply AddNode_subnets_mono, Hk.
Qed.

(** X10: when [ServeExistingNodes] returns no error, every listed node has a
    subnet record. *)
Theorem ServeExistingNodes_success_all_recorded (l : list node) (st : mstate)
  (Hok : (ServeExistingNodes env (Some l) st).1 = None) :
  forall nd, In nd l -> is_Some (subnets (ServeExistingNodes env (Some l) st).2 !! Name nd).
Proof.
  simpl in *. revert st Hok. induction l as [|nd0 rest IH]; intros st Hok nd Hin; [destruct Hin|].
  simpl in Hok |- *.
  destruct Hin as [<-|Hin].
  - destruct (GetSubnet env st (Name nd0)) eqn:Hg.
    + apply serveNodes_mono. unfold GetSubnet in Hg.
      destruct (getOK env (Name nd0)); [rewrite Hg; eauto | discriminate].
    + destruct (AddNodeError env (Name nd0) (IP nd0) st) eqn:He; [discriminate|].
      apply serveNodes_mono, AddNode_recorded, He.
  - destruct (GetSubnet env st (Name nd0)); [apply IH; assumption|].
    destruct (AddNodeError env (Name nd0) (IP nd0) st); [discriminate|].
    apply IH; assumption.
Qed.


(** X12: adding a new node with a valid IP, then deleting it, with every
    registry call succeeding, restores the records and the pool. *)
Theorem AddNode_DeleteNode_roundtrip (st : mstate) (name ip : string)
  (Hnone : subnets st !! name = None) (Hpool : freeNets st <> [])
  (Hip : validIP ip = true) (Hget : getOK env name = true) (Hdel : deleteOK env name = true)
  (Hc : forall sn, createOK env name (mkSubnet ip sn) = true)
  (Hp : forall sn, parseCIDR sn = true) :
  DeleteNode env parseCIDR name (AddNode env name ip st).1 = (None, st).
Proof.
  unfold validIP in Hip. apply negb_true_iff in Hip.
  destruct st as [subs pool]. simpl in *.
  destruct pool as [|sn rest]; [congruence|].
  unfold AddNode, GetNetwork. simpl. rewrite Hip.
  unfold CreateSubnet. simpl. rewrite Hc. simpl.
  unfold DeleteNode, GetSubnet. rewrite Hget. simpl. rewrite lookup_insert_eq. simpl.
  rewrite Hp. simpl. unfold DeleteSubnet. rewrite Hdel. simpl.
  rewrite delete_insert_id by exact Hnone. reflexivity.
Qed.

End NodeProps.

Lemma AddNode_takes_network_witness :
  freeNets mst1 = ["10.128.2.0/23"] /\
  freeNets (AddNode envOK "n2" "10.1.0.2" mst1).1 = [] /\
  subnets (AddNode envOK "n2" "10.1.0.2" mst1).1 =
    <["n2" := mkSubnet "10.1.0.2" "10.128.2.0/23"]> (subnets mst1).
Proof.
  assert (Hf : freeNets mst1 = ["10.128.2.0/23"]) by reflexivity.
  destruct (AddNode_takes_network envOK "n2" "10.1.0.2" "10.128.2.0/23" [] mst1 Hf) as (H1 & H2 & _).
  split; [exact Hf|]. split; [exact H1|]. rewrite H2. reflexivity.
Defined.

Lemma ServeExistingNodes_keeps_existing_witness :
  getOK envCreateFails "n1" = true /\
  subnets mst1 !! "n1" = Some (mkSubnet "10.1.0.1" "10.128.0.0/23") /\
  subnets (ServeExistingNodes envCreateFails (Some nodesList) mst1).2 !! "n1" =
    Some (mkSubnet "10.1.0.1" "10.128.0.0/23").
Proof.
  assert (Hg : getOK envCreateFails "n1" = true) by reflexivity.
  assert (Hs : subnets mst1 !! "n1" = Some (mkSubnet "10.1.0.1" "10.128.0.0/23"))
    by (vm_compute; reflexivity).
  split; [exact Hg|]. split; [exact Hs|].
  exact (ServeExistingNodes_keeps_existing envCreateFails (Some nodesList) mst1 "n1" _ Hg Hs).
Defined.

Lemma ServeExistingNodes_success_all_recorded_witness :
  (ServeExistingNodes envOK (Some nodesList) mst1).1 = None /\
  is_Some (subnets (ServeExistingNodes envOK (Some nodesList) mst1).2 !! "n2").
Proof.
  assert (Hok : (ServeExistingNodes envOK (Some nodesList) mst1).1 = None)
    by (vm_compute; reflexivity).
  split; [exact Hok|].
  exact (ServeExistingNodes_success_all_recorded envOK nodesList mst1 Hok
           (mkNode "n2" "10.1.0.2") (or_intror (or_introl eq_refl))).
Defined.


Lemma AddNode_DeleteNode_roundtrip_witness :
  subnets mst1 !! "n2" = None /\
  DeleteNode envOK (fun _ => true) "n2" (AddNode envOK "n2" "10.1.0.2" mst1).1 = (None, mst1).
Proof.
  assert (Hn : subnets mst1 !! "n2" = None) by (vm_compute; reflexivity).
  split; [exact Hn|].
  apply (AddNode_DeleteNode_roundtrip envOK (fun _ => true) mst1 "n2" "10.1.0.2" Hn).
  - intros Heq; vm_compute in Heq; discriminate Heq.
  - vm_compute; reflexivity.
  - reflexivity.
  - reflexivity.
  - intros sn; reflexivity.
  - intros sn; reflexivity.
Defined.

(* ------------------------------------------------------------------ *)
(** ** Properties of the VNID handling *)

Import VNID.

Section VProps.
Variable env : vnidEnv.

(** X13: when [assignVNID] fails, registry, [VNIDMap] and the NetID pool
    are as before (the id it took is released). *)
Theorem assignVNID_error_restores (name : string) (st : vstate)
  (Hnd : NoDup (freeIDs st)) (Herr : (assignVNID env name st).1 <> None) :
  (assignVNID env name st).2 = st.
Proof.
  revert Herr. unfold assignVNID.
  destruct (GetNetNamespace env st name); [simpl; congruence|].
  destruct st as [nns vm ids]. unfold GetNetID. simpl in *.
  destruct ids as [|id rest]; [reflexivity|].
  unfold WriteNetNamespace. simpl.
  destruct (nsWriteOK env name id); simpl; [congruence|].
  intros _. unfold ReleaseNetID. simpl.
  apply NoDup_cons in Hnd as [Hni _].
  rewrite bool_decide_eq_false_2 by exact Hni. reflexivity.
Qed.

(** X14: [revokeVNID] of a namespace absent from [VNIDMap] fails after
    having deleted its NetNamespace record. *)
Theorem revokeVNID_unknown_deletes_record (name : string) (st : vstate)
  (Hdel : nsDeleteOK env name = true) (Hm : VNIDMap st !! name = None) :
  (revokeVNID env name st).1 <> None /\
  (revokeVNID env name st).2 = with_netNamespaces (delete name) st.
Proof.
  unfold revokeVNID, DeleteNetNamespace. rewrite Hdel. simpl. rewrite Hm.
  split; [discriminate | reflexivity].
Qed.

Lemma assignVNID_mirror name st :
  mirror st -> (assignVNID env name st).1 = None -> mirror (assignVNID env name st).2 /\
    (VNIDMap st !! name = None -> is_Some (VNIDMap (assignVNID env name st).2 !! name)) /\
    (forall k, k <> name -> VNIDMap (assignVNID env name st).2 !! k = VNIDMap st !! k).
Proof.
  intros Hm. unfold assignVNID.
  destruct (GetNetNamespace env st name) eqn:Hg.
  - intros _. split_and!; [exact Hm| |reflexivity].
    intros Hn. unfold GetNetNamespace in Hg. unfold mirror in Hm.
    destruct (nsGetOK env name); [|discriminate]. rewrite <- Hm, Hn in Hg. discriminate.
  - destruct st as [nns vm ids]. unfold GetNetID. simpl in *.
    destruct ids as [|id rest]; [discriminate|].
    unfold WriteNetNamespace. simpl.
    destruct (nsWriteOK env name id); simpl; [|discriminate].
    intros _. unfold mirror in *. simpl in *. subst vm. split_and!.
    + reflexivity.
    + intros _. rewrite lookup_insert_eq. eauto.
    + intros k Hk. apply lookup_insert_ne. congruence.
Qed.

Lemma revokeVNID_mirror name st :
  mirror st -> (revokeVNID env name st).1 = None -> mirror (revokeVNID env name st).2 /\
    VNIDMap (revokeVNID env name st).2 !! name = None /\
    (forall k, k <> name -> VNIDMap (revokeVNID env name st).2 !! k = VNIDMap st !! k).
Proof.
  intros Hm. unfold revokeVNID, DeleteNetNamespace.
  destruct (nsDeleteOK env name); simpl; [|discriminate].
  destruct (VNIDMap st !! name) as [netid|]; simpl; [|discriminate].
  unfold ReleaseNetID. simpl.
  case_bool_decide; simpl; [discriminate|].
  intros _. unfold mirror in *. simpl. split_and!.
  - rewrite Hm. reflexivity.
  - apply lookup_delete_eq.
  - intros k Hk. apply lookup_delete_ne. congruence.
Qed.

Lemma StartMasterNamespaces_frame admins l st :
  mirror st -> (StartMasterNamespaces env admins l st).1 = None ->
  mirror (StartMasterNamespaces env admins l st).2 /\
  forall k, k ∉ l -> VNIDMap (StartMasterNamespaces env admins l st).2 !! k = VNIDMap st !! k.
Proof.
  revert st. induction l as [|n rest IH]; intros st Hm Hok; simpl in *; [split; auto|].
  destruct (isAdminNamespace admins n); destruct (VNIDMap st !! n) eqn:Hv.
  - destruct (revokeVNID env n st) as [[e|] st1] eqn:Hr; [discriminate|].
    destruct (revokeVNID_mirror n st Hm) as (Hm1 & _ & Hk1); [rewrite Hr; reflexivity|].
    rewrite Hr in Hm1, Hk1. simpl in Hm1, Hk1.
    destruct (IH st1 Hm1 Hok) as [Hm2 Hk2]. split; [exact Hm2|].
    intros k Hk. rewrite Hk2, Hk1 by set_solver. reflexivity.
  - destruct (IH st Hm Hok) as [Hm2 Hk2]. split; [exact Hm2|]. intros k Hk. apply Hk2. set_solver.
  - destruct (IH st Hm Hok) as [Hm2 Hk2]. split; [exact Hm2|]. intros k Hk. apply Hk2. set_solver.
  - destruct (assignVNID env n st) as [[e|] st1] eqn:Ha; [discriminate|].
    destruct (assignVNID_mirror n st Hm) as (Hm1 & _ & Hk1); [rewrite Ha; reflexivity|].
    rewrite Ha in Hm1, Hk1. simpl in Hm1, Hk1.
    destruct (IH st1 Hm1 Hok) as [Hm2 Hk2]. split; [exact Hm2|].
    intros k Hk. rewrite Hk2, Hk1 by set_solver. reflexivity.
Qed.

(** X15: when the [StartMaster] pass over existing namespaces succeeds from
    a [VNIDMap] mirroring the registry, listed admin namespaces have no
    VNID and listed other namespaces have one. *)
Theorem StartMasterNamespaces_success (admins names : list string) (st : vstate)
  (Hm : VNIDMap st = netNamespaces st)
  (Hok : (StartMasterNamespaces env admins names st).1 = None) :
  forall n, In n names ->
    (isAdminNamespace admins n = true -> VNIDMap (StartMasterNamespaces env admins names st).2 !! n = None) /\
    (isAdminNamespace admins n = false -> is_Some (VNIDMap (StartMasterNamespaces env admins names st).2 !! n)).
Proof.
  fold (mirror st) in Hm. revert st Hm Hok.
  induction names as [|n0 rest IH]; intros st Hm Hok n Hin; [destruct Hin|].
  destruct (decide (n ∈ rest)) as [Hr|Hr].
  - apply list_elem_of_In in Hr. simpl in Hok |- *.
    destruct (isAdminNamespace admins n0); destruct (VNIDMap st !! n0) eqn:Hv.
    + destruct (revokeVNID env n0 st) as [[e|] st1] eqn:Hrv; [discriminate|].
      destruct (revokeVNID_mirror n0 st Hm) as (Hm1 & _ & _); [rewrite Hrv; reflexivity|].
      rewrite Hrv in Hm1. apply IH; assumption.
    + apply IH; assumption.
    + apply IH; assumption.
    + destruct (assignVNID env n0 st) as [[e|] st1] eqn:Ha; [discriminate|].
      destruct (assignVNID_mirror n0 st Hm) as (Hm1 & _ & _); [rewrite Ha; reflexivity|].
      rewrite Ha in Hm1. apply IH; assumption.
  - destruct Hin as [<-|Hin]; [|apply list_elem_of_In in Hin; contradiction].
    simpl in Hok |- *.
    destruct (isAdminNamespace admins n0) eqn:Had; destruct (VNIDMap st !! n0) eqn:Hv.
    + destruct (revokeVNID env n0 st) as [[e|] st1] eqn:Hrv; [discriminate|].
      destruct (revokeVNID_mirror n0 st Hm) as (Hm1 & Hn1 & _); [rewrite Hrv; reflexivity|].
      rewrite Hrv in Hm1, Hn1. simpl in Hm1, Hn1.
      destruct (StartMasterNamespaces_frame admins rest st1 Hm1 Hok) as [_ Hk].
      split; [intros _; rewrite Hk by exact Hr; exact Hn1 | discriminate].
    + destruct (StartMasterNamespaces_frame admins rest st Hm Hok) as [_ Hk].
      split; [intros _; rewrite Hk by exact Hr; exact Hv | discriminate].
    + destruct (StartMasterNamespaces_frame admins rest st Hm Hok) as [_ Hk].
      split; [discriminate | intros _; rewrite Hk by exact Hr; rewrite Hv; eauto].
    + destruct (assignVNID env n0 st) as [[e|] st1] eqn:Ha; [discriminate|].
      destruct (assignVNID_mirror n0 st Hm) as (Hm1 & Hs1 & _); [rewrite Ha; reflexivity|].
      rewrite Ha in Hm1, Hs1. simpl in Hm1, Hs1.
      destruct (StartMasterNamespaces_frame admins rest st1 Hm1 Hok) as [_ Hk].
      split; [discriminate | intros _; rewrite Hk by exact Hr; apply Hs1, Hv].
Qed.

(** X16: [StartMaster] leaves an admin namespace without a VNID, but an
    [Added] event in [watchNetworks] gives it a fresh NetID. *)
Theorem admin_namespace_gets_vnid_from_watch (admins : list string) (name : string) (st : vstate)
  (id : Z) (rest : list Z)
  (Had : isAdminNamespace admins name = true) (Hv : VNIDMap st !! name = None)
  (Hg : GetNetNamespace env st name = None) (Hf : freeIDs st = id :: rest)
  (Hw : nsWriteOK env name id = true) :
  VNIDMap (StartMasterNamespaces env admins [name] st).2 !! name = None /\
  VNIDMap (watchNetworks env true name st) !! name = Some id.
Proof.
  split.
  - simpl. rewrite Had, Hv. exact Hv.
  - unfold watchNetworks, assignVNID. rewrite Hg.
    destruct st as [nns vm ids]. unfold GetNetID. simpl in *. rewrite Hf.
    unfold WriteNetNamespace. simpl. rewrite Hw. simpl. apply lookup_insert_eq.
Qed.

End VProps.

(** X17: on a node, after [watchVnids] adds [(name, id)] the services of
    [name] get rules with [id]; after it deletes [name], with VNID 0. *)
Theorem watchServices_after_watchVnids (b : bool) (svc : service) (netid : Z) (m : gmap string Z) :
  let rules v := if b then AddServiceOFRules v (SvcIP svc) (Protocol svc) (Port svc)
                 else DelServiceOFRules v (SvcIP svc) (Protocol svc) (Port svc) in
  watchServices b svc (watchVnids true (Namespace svc) netid m) = rules netid /\
  watchServices b svc (watchVnids false (Namespace svc) netid m) = rules 0%Z.
Proof.
  unfold watchServices, watchVnids.
  rewrite lookup_insert_eq, lookup_delete_eq. split; reflexivity.
Qed.

Lemma assignVNID_error_restores_witness :
  (assignVNID vEnvWriteFails "ns1" vst0).1 <> None /\
  (assignVNID vEnvWriteFails "ns1" vst0).2 = vst0.
Proof.
  assert (Hnd : NoDup (freeIDs vst0)) by (repeat constructor; set_solver).
  assert (Herr : (assignVNID vEnvWriteFails "ns1" vst0).1 <> None)
    by (intros Heq; vm_compute in Heq; discriminate Heq).
  split; [exact Herr|].
  exact (assignVNID_error_restores vEnvWriteFails "ns1" vst0 Hnd Herr).
Defined.

Lemma revokeVNID_unknown_deletes_record_witness :
  (revokeVNID vEnvOK "default" (mkV {[ "default" := 12%Z ]} ∅ [])).1 <> None /\
  (revokeVNID vEnvOK "default" (mkV {[ "default" := 12%Z ]} ∅ [])).2 = mkV ∅ ∅ [].
Proof.
  destruct (revokeVNID_unknown_deletes_record vEnvOK "default" (mkV {[ "default" := 12%Z ]} ∅ []))
    as [H1 H2]; [reflexivity | reflexivity |].
  split; [exact H1|]. rewrite H2. vm_compute. reflexivity.
Defined.

Lemma StartMasterNamespaces_success_witness :
  (StartMasterNamespaces vEnvOK ["default"] ["default"; "ns1"] vst1).1 = None /\
  VNIDMap (StartMasterNamespaces vEnvOK ["default"] ["default"; "ns1"] vst1).2 !! "default" = None /\
  is_Some (VNIDMap (StartMasterNamespaces vEnvOK ["default"] ["default"; "ns1"] vst1).2 !! "ns1").
Proof.
  assert (Hm : VNIDMap vst1 = netNamespaces vst1) by reflexivity.
  assert (Hok : (StartMasterNamespaces vEnvOK ["default"] ["default"; "ns1"] vst1).1 = None)
    by (vm_compute; reflexivity).
  pose proof (StartMasterNamespaces_success vEnvOK ["default"] ["default"; "ns1"] vst1 Hm Hok) as H.
  split; [exact Hok|]. split.
  - apply (H "default"); [left; reflexivity | reflexivity].
  - apply (H "ns1"); [right; left; reflexivity | reflexivity].
Defined.

Lemma admin_namespace_gets_vnid_from_watch_witness :
  VNIDMap (StartMasterNamespaces vEnvOK ["default"] ["default"] vst0).2 !! "default" = None /\
  VNIDMap (watchNetworks vEnvOK true "default" vst0) !! "default" = Some 10%Z.
Proof.
  apply (admin_namespace_gets_vnid_from_watch vEnvOK ["default"] "default" vst0 10 [11%Z]).
  - reflexivity.
  - vm_compute; reflexivity.
  - vm_compute; reflexivity.
  - reflexivity.
  - reflexivity.
Defined.
